(** * tgen: the command-line driver of the T-tree generator

    A shallow embedding of [tgen/tgen.py]: the six command-line actions,
    the dispatcher, Python's [getopt] and [int] as the driver uses them,
    and the collaborators the driver calls ([eval], [futil], [planner]).
    The driver's lists are lists, its counters are naturals, scores are
    rationals, and every call that touches a file leaves an event in a
    trace. *)

From Stdlib Require Import Ascii String ZArith QArith Qminmax Lia.
From stdpp Require Import base list strings gmap.

Local Open Scope string_scope.
Local Open Scope list_scope.

(** ** Python values the driver relies on *)

Inductive PyExn :=
| GetoptError (msg : string)
| ValueError (msg : string)
| AttributeError (msg : string).

(** What a statement sequence ends with: a value, [sys.exit(msg)], or an
    exception that nobody catches. *)
Inductive Outcome (A : Type) :=
| Ret (a : A)
| SysExit (msg : string)
| Raise (e : PyExn).
Arguments Ret {A} a.
Arguments SysExit {A} msg.
Arguments Raise {A} e.

Definition chr (c : ascii) : string := String c EmptyString.

(** [s.startswith(p)] *)
Definition startswith (p s : string) : bool := String.prefix p s.

(** *** [getopt.getopt(args, shortopts)] with no long options *)

(** [short_has_arg]: scans [shortopts] for the option letter; a letter
    that is absent (or is the colon) is not recognized. *)
Fixpoint short_has_arg (opt : ascii) (shortopts : string) : Outcome bool :=
  match shortopts with
  | EmptyString =>
      Raise (GetoptError ("option -" +:+ chr opt +:+ " not recognized"))
  | String c rest =>
      if Ascii.eqb opt c && negb (Ascii.eqb c ":")
      then Ret (startswith ":" rest)
      else short_has_arg opt rest
  end.

(** [do_shorts]: one argument word after its dash.  [next] is the word
    that follows on the command line, if any; the boolean of the result
    tells whether that word was taken as the option's value. *)
Fixpoint do_shorts (opts : list (string * string)) (optstring shortopts : string)
    (next : option string) : Outcome (list (string * string) * bool) :=
  match optstring with
  | EmptyString => Ret (opts, false)
  | String opt rest =>
      match short_has_arg opt shortopts with
      | Ret true =>
          match rest with
          | EmptyString =>
              match next with
              | None =>
                  Raise (GetoptError ("option -" +:+ chr opt +:+ " requires argument"))
              | Some optarg => Ret (opts ++ [("-" +:+ chr opt, optarg)], true)
              end
          | _ => Ret (opts ++ [("-" +:+ chr opt, rest)], false)
          end
      | Ret false => do_shorts (opts ++ [("-" +:+ chr opt, "")]) rest shortopts next
      | SysExit m => SysExit m
      | Raise e => Raise e
      end
  end.

Definition prepend_opts (os : list (string * string))
    (r : Outcome (list (string * string) * list string))
  : Outcome (list (string * string) * list string) :=
  match r with
  | Ret (os', files) => Ret (os ++ os', files)
  | SysExit m => SysExit m
  | Raise e => Raise e
  end.

(** The name of a long option: what precedes the equals sign. *)
Fixpoint long_name (s : string) : string :=
  match s with
  | EmptyString => EmptyString
  | String c r => if Ascii.eqb c "=" then EmptyString else String c (long_name r)
  end.

(** The loop of [getopt]: option words are consumed from the front until
    the first word that is not an option (or is a lone dash), or until the
    double dash.  With an empty list of long options every [--name] is
    unrecognized. *)
Fixpoint getopt (args : list string) (shortopts : string)
  : Outcome (list (string * string) * list string) :=
  match args with
  | [] => Ret ([], [])
  | a :: rest =>
      if startswith "-" a && negb (String.eqb a "-") then
        if String.eqb a "--" then Ret ([], rest)
        else if startswith "--" a then
          Raise (GetoptError ("option --"
                   +:+ long_name (String.substring 2 (String.length a - 2) a)
                   +:+ " not recognized"))
        else
          match do_shorts [] (String.substring 1 (String.length a - 1) a)
                  shortopts (head rest) with
          | Ret (os, true) =>
              match rest with
              | [] => Ret (os, [])
              | _ :: rest' => prepend_opts os (getopt rest' shortopts)
              end
          | Ret (os, false) => prepend_opts os (getopt rest shortopts)
          | SysExit m => SysExit m
          | Raise e => Raise e
          end
      else Ret ([], args)
  end.

(** *** [int(s)] on a string: blanks around, an optional sign, digits *)

Definition is_blank (c : ascii) : bool :=
  Ascii.eqb c " " || Ascii.eqb c "009" || Ascii.eqb c "010" || Ascii.eqb c "013".

Fixpoint lstrip (s : string) : string :=
  match s with
  | String c r => if is_blank c then lstrip r else s
  | EmptyString => EmptyString
  end.

Definition strip (s : string) : string :=
  String.rev (lstrip (String.rev (lstrip s))).

Definition digit_of (c : ascii) : option Z :=
  let n := nat_of_ascii c in
  if (48 <=? n)%nat && (n <=? 57)%nat then Some (Z.of_nat (n - 48)) else None.

Fixpoint parse_digits (acc : Z) (s : string) : option Z :=
  match s with
  | EmptyString => Some acc
  | String c r =>
      match digit_of c with
      | Some d => parse_digits (10 * acc + d) r
      | None => None
      end
  end.

Definition parse_int (s : string) : option Z :=
  match strip s with
  | EmptyString => None
  | String "-" (String c r) => Z.opp <$> parse_digits 0 (String c r)
  | String "+" (String c r) => parse_digits 0 (String c r)
  | String c r => parse_digits 0 (String c r)
  end.

Definition int_error (s : string) : PyExn :=
  ValueError ("invalid literal for int() with base 10: '" +:+ s +:+ "'").

Definition py_int (s : string) : Outcome Z :=
  match parse_int s with
  | Some n => Ret n
  | None => Raise (int_error s)
  end.

(** [max(items, key=key)]: the first item whose key no later item exceeds;
    an empty sequence is a [ValueError]. *)
Definition Qlt_bool (x y : Q) : bool := negb (Qle_bool y x).

Fixpoint py_max_from {A : Type} (key : A -> Q) (best : A) (l : list A) : A :=
  match l with
  | [] => best
  | x :: r => py_max_from key (if Qlt_bool (key best) (key x) then x else best) r
  end.

Definition py_max {A : Type} (key : A -> Q) (l : list A) : Outcome A :=
  match l with
  | [] => Raise (ValueError "max() arg is an empty sequence")
  | x :: r => Ret (py_max_from key x r)
  end.

(** [zip(xs, ys)] of Python 2: a list as long as the shorter argument. *)
Definition py_zip {A B : Type} (xs : list A) (ys : list B) : list (A * B) :=
  combine xs ys.

(** ** Data model *)

(** A label bundle is opaque beyond equality. *)
Abbreviation LabelBundle := string (only parsing).

Record DAItem := mkDAItem { da_type : string; da_slot : string; da_value : string }.

Definition DAItem_eqb (x y : DAItem) : bool :=
  String.eqb (da_type x) (da_type y) && String.eqb (da_slot x) (da_slot y)
  && String.eqb (da_value x) (da_value y).

Definition DA := list DAItem.

(** A node's id is its index in the tree; the root's parent is the
    sentinel [None]. *)
Record TreeNode := mkNode {
  parent : option nat;
  children : list nat;
  label : LabelBundle
}.

Definition SyntaxTree := list TreeNode.

(** The accumulating output collection: trees in the order appended. *)
Definition Doc := list SyntaxTree.

(** ** Evaluation utilities ([eval]) *)

Abbreviation NodePair := (LabelBundle * option LabelBundle)%type (only parsing).

Definition parent_label (t : SyntaxTree) (n : TreeNode) : option LabelBundle :=
  match parent n with
  | Some p => label <$> (t !! p)
  | None => None
  end.

Definition tree_pairs (t : SyntaxTree) : list NodePair :=
  map (fun n => (label n, parent_label t n)) t.

Definition pair_set (t : SyntaxTree) : gset NodePair := list_to_set (tree_pairs t).

(** Modelled from the spec: [eval.tp_fp_fn] is not among the sources.  Each
    tree is the set of its (label bundle, parent label bundle) pairs, the
    root carrying the sentinel as parent; the generated set is intersected
    with the gold set. *)
Definition tp_fp_fn (gold_tree generated_tree : SyntaxTree) : nat * nat * nat :=
  let gold := pair_set gold_tree in
  let gen := pair_set generated_tree in
  (size (gen ∩ gold), size (gen ∖ gold), size (gold ∖ gen)).

Definition Qnat (n : nat) : Q := inject_Z (Z.of_nat n).

Definition ratio (a b : nat) : Q :=
  if (b =? 0)%nat then 0%Q else Qred (Qnat a / Qnat b).

(** Modelled from the spec: [eval.p_r_f1_from_counts] is not among the
    sources.  It takes the three counts of [tp_fp_fn] in the order the
    driver passes them: correct (true positives), gold (gold pairs that
    were missed) and predicted (generated pairs that are not gold).
    Precision, recall and F1 are the standard ones, kept in lowest terms;
    F1 is 0 when precision and recall are both 0, and all three are 1 when
    the gold and the predicted set are both empty. *)
Definition p_r_f1_from_counts (correct gold predicted : nat) : Q * Q * Q :=
  if ((correct + gold =? 0) && (correct + predicted =? 0))%nat then (1%Q, 1%Q, 1%Q)
  else
    let precision := ratio correct (correct + predicted) in
    let recall := ratio correct (correct + gold) in
    let f1 := if Qeq_bool (precision + recall) 0 then 0%Q
              else Qred (2 * precision * recall / (precision + recall)) in
    (precision, recall, f1).

(** Modelled from the spec: [eval.f1_from_counts], the third component. *)
Definition f1_from_counts (correct gold predicted : nat) : Q :=
  snd (p_r_f1_from_counts correct gold predicted).

(** ** [futil] *)

(** Modelled from the spec: [futil.chunk_list] is not among the sources;
    the driver uses it to regroup the generated trees into runs of
    [num_to_generate] consecutive trees, one run per dialogue act. *)
Fixpoint chunk_list_aux {A : Type} (fuel : nat) (l : list A) (n : nat) : list (list A) :=
  match fuel with
  | O => []
  | S fuel' =>
      match l with
      | [] => []
      | _ => take n l :: chunk_list_aux fuel' (drop n l) n
      end
  end.

Definition chunk_list {A : Type} (l : list A) (n : nat) : list (list A) :=
  chunk_list_aux (length l) l n.

(** ** The evaluation loops of the driver *)

Definition nl : string := String "010" EmptyString.

(** The list the oracle loop of [sample_gen] maximizes over: for each
    generated tree the tuple [(f1_from_counts(c, p, g), c, p, g)] with
    [(c, p, g)] the triple of [tp_fp_fn]. *)
Definition scored_counts (gold_tree : SyntaxTree) (gen_trees : list SyntaxTree)
  : list (Q * nat * nat * nat) :=
  map (fun '(c, p, g) => (f1_from_counts c p g, c, p, g))
      (map (fun gen_tree => tp_fp_fn gold_tree gen_tree) gen_trees).

Definition score_key (x : Q * nat * nat * nat) : Q := x.1.1.1.

(** The body of the oracle loop: the best of the predicted trees in terms
    of F1, and its counts added to the running totals. *)
Fixpoint oracle_counts (pairs : list (SyntaxTree * list SyntaxTree))
    (acc : nat * nat * nat) : Outcome (nat * nat * nat) :=
  match pairs with
  | [] => Ret acc
  | (gold_tree, gen_trees) :: rest =>
      match py_max score_key (scored_counts gold_tree gen_trees) with
      | Ret (_, tc, tp, tg) =>
          let '(correct, predicted, gold) := acc in
          oracle_counts rest (correct + tc, predicted + tp, gold + tg)
      | SysExit m => SysExit m
      | Raise e => Raise e
      end
  end.

(** The evaluation loop of [asearch_gen]. *)
Fixpoint node_counts (pairs : list (SyntaxTree * SyntaxTree)) (acc : nat * nat * nat)
  : nat * nat * nat :=
  match pairs with
  | [] => acc
  | (eval_ttree, gen_ttree) :: rest =>
      let '(tc, tp, tg) := tp_fp_fn eval_ttree gen_ttree in
      let '(correct, predicted, gold) := acc in
      node_counts rest (correct + tc, predicted + tp, gold + tg)
  end.

(** ** The driver's usage text ([__doc__]) *)

Definition usage : string :=
"
Generating T-trees from dialogue acts.

Usage: ./tgen.py <action> <argument1 ...>

Actions:

candgen_train -- train candidate generator (probability distributions)
    - arguments: [-p prune_threshold] train-das train-ttrees output-model

logregrank_create_data -- create training data for logistic regression ranker
    - arguments: [-h use-headers] train-das train-ttrees candgen-model ranker-config output-train-data

logregrank_train -- train logistic regression local ranker
    - arguments: ranker-config ranker-train-data output-model

percrank_train -- train perceptron global ranker
    - arguments: [-d debug-output] [-c candgen-model] ranker-config train-das train-ttrees output-model

sample_gen -- generate using the given candidate generator and ranker
    - arguments: [-n trees-per-da] [-r ranker-model] [-o oracle-eval-ttrees] [-w output-ttrees] candgen-model test-das

asearch_gen -- generate using the A*search sentence planner
    - arguments: [-e oracle-eval-ttrees] [-d debug-output] [-w output-ttrees] [-c config] candgen-model percrank-model test-das
".

(** ** Collaborators as the driver sees them *)

(** The ranker handed to a planner: a model loaded from a file, or the
    candidate generator itself. *)
Inductive Ranker :=
| LogisticRegressionRanker (model : string)
| PerceptronRanker (model : string)
| CandgenAsRanker (model : string).

(** [SamplingPlanner({'candgen': ..., 'ranker': ...})] *)
Record SamplingPlanner := mkSampling {
  sp_candgen : string;
  sp_ranker : Ranker
}.

(** [ASearchPlanner(cfg)] after [cfg.update(...)] *)
Record ASearchPlanner := mkASearch {
  as_config : option string;
  as_candgen : string;
  as_debug_out : option string;
  as_ranker : Ranker
}.

(** One entry per call that leaves the driver. *)
Inductive Event :=
| LogInfo (msg : string)
| LogScores (what : string) (prf : Q * Q * Q)
| FileStreamW (path : string)
| CandgenTrain (prune_threshold : Z) (das ttrees : string)
| CandgenSave (path : string)
| CandgenLoad (path : string)
| ConfigRead (path : string)
| LogRegCreateData (config ttrees das candgen out : string) (header : option string)
| LogRegTrain (config data : string)
| PercTrain (config : string) (debug candgen : option string) (das ttrees : string)
| RankerSave (path : string)
| RankerLoad (path : string)
| ReadDas (path : string)
| ReadTtrees (path : string)
| WriteYaml (path : string) (doc : option Doc).

(** Opening the debug sink and logging are the only calls that neither
    read a corpus or a model nor write a model, data or tree file. *)
Definition touches_data (e : Event) : bool :=
  match e with
  | LogInfo _ | LogScores _ _ | FileStreamW _ => false
  | _ => true
  end.

Inductive Action :=
| ACandgenTrain | ALogregrankCreateData | ALogregrankTrain
| APercrankTrain | ASampleGen | AASearchGen.

Section Driver.

(** The state of the global random number generator and
    [random.seed]. *)
Variable RngState : Type.
Variable random_seed : Z -> RngState.

(** [futil.read_das] and [futil.read_ttrees] on a file name. *)
Variable read_das : string -> list DA.
Variable read_ttrees : string -> Doc.

(** What [futil.ttrees_from_doc] does when handed [None] instead of a
    document (no tree was ever generated); the sources do not show it. *)
Variable ttrees_of_none : Outcome (list SyntaxTree).

(** The tree one [generate_tree] call of each planner produces. *)
Variable sampling_tree : SamplingPlanner -> DA -> RngState -> SyntaxTree * RngState.
Variable asearch_tree : ASearchPlanner -> DA -> option SyntaxTree -> SyntaxTree.

Record World := mkWorld { rng : RngState; trace : list Event }.

Definition M (A : Type) : Type := World -> Outcome A * World.

Definition ret {A : Type} (a : A) : M A := fun w => (Ret a, w).

Definition bind {A B : Type} (m : M A) (k : A -> M B) : M B :=
  fun w =>
    match m w with
    | (Ret a, w') => k a w'
    | (SysExit msg, w') => (SysExit msg, w')
    | (Raise e, w') => (Raise e, w')
    end.

Definition lift {A : Type} (o : Outcome A) : M A := fun w => (o, w).

Definition sys_exit {A : Type} (msg : string) : M A := lift (SysExit msg).

Definition emit (e : Event) : M unit :=
  fun w => (Ret tt, {| rng := rng w; trace := trace w ++ [e] |}).

Definition log_info (msg : string) : M unit := emit (LogInfo msg).

Definition seed (n : Z) : M unit :=
  fun w => (Ret tt, {| rng := random_seed n; trace := trace w |}).

Notation "'do' p <-- m ;; k" := (bind m (fun x => match x with p => k end))
  (at level 62, p pattern, m at next level, right associativity).
Notation "m ;;; k" := (bind m (fun _ => k))
  (at level 62, right associativity).

(** [for x in l: s = body(s, x)] *)
Fixpoint for_each {A S : Type} (l : list A) (s : S) (body : S -> A -> M S) : M S :=
  match l with
  | [] => ret s
  | x :: r => do s' <-- body s x ;; for_each r s' body
  end.

(** A tuple assignment from [files] whose length was not checked. *)
Definition unpack_error {A : Type} : M A :=
  lift (Raise (ValueError "wrong number of values to unpack")).

(** *** [candgen_train] *)
Definition candgen_train_options (opts : list (string * string)) : M Z :=
  for_each opts 1%Z (fun prune_threshold '(opt, arg) =>
    if String.eqb opt "-p" then lift (py_int arg) else ret prune_threshold).

Definition candgen_train (args : list string) : M unit :=
  do (opts, files) <-- lift (getopt args "p:") ;;
  do prune_threshold <-- candgen_train_options opts ;;
  if negb (length files =? 3)%nat then sys_exit usage else
  match files with
  | [fname_da_train; fname_ttrees_train; fname_cand_model] =>
      log_info "Training candidate generator..." ;;;
      emit (CandgenTrain prune_threshold fname_da_train fname_ttrees_train) ;;;
      emit (CandgenSave fname_cand_model)
  | _ => unpack_error
  end.

(** *** [logregrank_create_data] *)
Definition logregrank_create_data_options (opts : list (string * string))
  : M (option string) :=
  for_each opts None (fun header_file '(opt, arg) =>
    if String.eqb opt "-h" then ret (Some arg) else ret header_file).

Definition logregrank_create_data (args : list string) : M unit :=
  do (opts, files) <-- lift (getopt args "h:") ;;
  do header_file <-- logregrank_create_data_options opts ;;
  if negb (length files =? 5)%nat then sys_exit usage else
  match files with
  | [fname_da_train; fname_ttrees_train; fname_cand_model; fname_rank_config;
     fname_rank_train] =>
      log_info "Creating data for ranker..." ;;;
      emit (CandgenLoad fname_cand_model) ;;;
      emit (ConfigRead fname_rank_config) ;;;
      emit (LogRegCreateData fname_rank_config fname_ttrees_train fname_da_train
              fname_cand_model fname_rank_train header_file)
  | _ => unpack_error
  end.

(** *** [logregrank_train] *)
Definition logregrank_train (args : list string) : M unit :=
  if negb (length args =? 3)%nat then sys_exit usage else
  match args with
  | [fname_rank_config; fname_rank_train; fname_rank_model] =>
      log_info "Training logistic regression ranker..." ;;;
      emit (ConfigRead fname_rank_config) ;;;
      emit (LogRegTrain fname_rank_config fname_rank_train) ;;;
      emit (RankerSave fname_rank_model)
  | _ => unpack_error
  end.

(** *** [percrank_train] *)
Definition percrank_train_options (opts : list (string * string))
  : M (option string * option string) :=
  for_each opts (None, None)
    (fun '(debug_out, candgen_model) '(opt, arg) =>
      if String.eqb opt "-d" then
        emit (FileStreamW arg) ;;; ret (Some arg, candgen_model)
      else if String.eqb opt "-c" then ret (debug_out, Some arg)
      else ret (debug_out, candgen_model)).

Definition percrank_train (args : list string) : M unit :=
  do (opts, files) <-- lift (getopt args "c:d:") ;;
  do (debug_out, candgen_model) <-- percrank_train_options opts ;;
  if negb (length files =? 4)%nat then sys_exit usage else
  match files with
  | [fname_rank_config; fname_train_das; fname_train_ttrees; fname_rank_model] =>
      log_info "Training perceptron ranker..." ;;;
      emit (ConfigRead fname_rank_config) ;;;
      emit (PercTrain fname_rank_config debug_out candgen_model
              fname_train_das fname_train_ttrees) ;;;
      emit (RankerSave fname_rank_model)
  | _ => unpack_error
  end.

(** *** The planners' [generate_tree] *)

Definition doc_trees (gen_doc : option Doc) : Doc := default [] gen_doc.

(** Modelled from the spec: the planners are not among the sources.  By
    their common contract a [generate_tree] call appends one newly
    generated tree to the accumulating collection and returns the updated
    collection; the sampling planner draws from the global generator. *)
Definition sampling_generate_tree (tgen : SamplingPlanner) (da : DA)
    (gen_doc : option Doc) : M (option Doc) :=
  fun w =>
    let '(t, r) := sampling_tree tgen da (rng w) in
    (Ret (Some (doc_trees gen_doc ++ [t])), {| rng := r; trace := trace w |}).

Definition asearch_generate_tree (tgen : ASearchPlanner) (da : DA)
    (gen_doc : option Doc) (gold_ttree : option SyntaxTree) : M (option Doc) :=
  ret (Some (doc_trees gen_doc ++ [asearch_tree tgen da gold_ttree])).

Definition ttrees_from_doc (doc : option Doc) : M (list SyntaxTree) :=
  match doc with
  | Some d => ret d
  | None => lift ttrees_of_none
  end.

Definition write_output (fname_ttrees_out : option string) (gen_doc : option Doc)
  : M unit :=
  match fname_ttrees_out with
  | Some f => log_info "Writing output..." ;;; emit (WriteYaml f gen_doc)
  | None => ret tt
  end.

(** *** [sample_gen] *)

(** The generation loop: every dialogue act, [num_to_generate] times. *)
Definition sample_gen_generate (tgen : SamplingPlanner) (das : list DA)
    (num_to_generate : Z) : M (option Doc) :=
  for_each das None (fun gen_doc da =>
    for_each (seq 0 (Z.to_nat num_to_generate)) gen_doc (fun gen_doc _ =>
      sampling_generate_tree tgen da gen_doc)).

Definition sample_gen_evaluate (oracle_eval_file : string) (gen_doc : option Doc)
    (num_to_generate : Z) : M unit :=
  log_info "Evaluating oracle F1..." ;;;
  log_info ("Loading gold data from " +:+ oracle_eval_file) ;;;
  emit (ReadTtrees oracle_eval_file) ;;;
  do gold_trees <-- ttrees_from_doc (Some (read_ttrees oracle_eval_file)) ;;
  do gen_trees <-- ttrees_from_doc gen_doc ;;
  log_info "Gold data loaded." ;;;
  do (correct, predicted, gold) <-- lift (oracle_counts
       (py_zip gold_trees (chunk_list gen_trees (Z.to_nat num_to_generate)))
       (0, 0, 0)%nat) ;;
  emit (LogScores "Oracle" (p_r_f1_from_counts correct gold predicted)).

Definition sample_gen_options (opts : list (string * string))
  : M (Z * option string * option string * option string) :=
    for_each opts (1%Z, None, None, None)
      (fun '(num_to_generate, ranker_model, oracle_eval_file, fname_ttrees_out)
           '(opt, arg) =>
        if String.eqb opt "-r" then
          ret (num_to_generate, Some arg, oracle_eval_file, fname_ttrees_out)
        else if String.eqb opt "-n" then
          do n <-- lift (py_int arg) ;;
          ret (n, ranker_model, oracle_eval_file, fname_ttrees_out)
        else if String.eqb opt "-o" then
          ret (num_to_generate, ranker_model, Some arg, fname_ttrees_out)
        else if String.eqb opt "-w" then
          ret (num_to_generate, ranker_model, oracle_eval_file, Some arg)
        else ret (num_to_generate, ranker_model, oracle_eval_file, fname_ttrees_out)).

Definition sample_gen (args : list string) : M unit :=
  do (opts, files) <-- lift (getopt args "r:n:o:w:") ;;
  do (num_to_generate, ranker_model, oracle_eval_file, fname_ttrees_out) <--
    sample_gen_options opts ;;
  if negb (length files =? 2)%nat then sys_exit usage else
  match files with
  | [fname_cand_model; fname_da_test] =>
      log_info "Initializing..." ;;;
      emit (CandgenLoad fname_cand_model) ;;;
      do ranker <-- match ranker_model with
                    | Some m => emit (RankerLoad m) ;;; ret (LogisticRegressionRanker m)
                    | None => ret (CandgenAsRanker fname_cand_model)
                    end ;;
      let tgen := mkSampling fname_cand_model ranker in
      log_info "Generating..." ;;;
      emit (ReadDas fname_da_test) ;;;
      do gen_doc <-- sample_gen_generate tgen (read_das fname_da_test) num_to_generate ;;
      match oracle_eval_file with
      | Some f => sample_gen_evaluate f gen_doc num_to_generate
      | None => ret tt
      end ;;;
      write_output fname_ttrees_out gen_doc
  | _ => unpack_error
  end.

(** *** [asearch_gen] *)

Definition asearch_gen_just_generate (tgen : ASearchPlanner) (das : list DA)
  : M (option Doc) :=
  for_each das None (fun gen_doc da => asearch_generate_tree tgen da gen_doc None).

Definition asearch_gen_evaluate (tgen : ASearchPlanner) (das : list DA)
    (eval_file : string) : M (option Doc) :=
  emit (ReadTtrees eval_file) ;;;
  do eval_ttrees <-- ttrees_from_doc (Some (read_ttrees eval_file)) ;;
  do gen_doc <-- for_each (py_zip das eval_ttrees) None
    (fun gen_doc '(da, eval_ttree) =>
      asearch_generate_tree tgen da gen_doc (Some eval_ttree)) ;;
  do gen_ttrees <-- ttrees_from_doc gen_doc ;;
  log_info "Evaluating..." ;;;
  do (correct, predicted, gold) <--
    ret (node_counts (py_zip eval_ttrees gen_ttrees) (0, 0, 0)%nat) ;;
  emit (LogScores "Node" (p_r_f1_from_counts correct gold predicted)) ;;;
  ret gen_doc.

Definition asearch_gen_options (opts : list (string * string))
  : M (option string * option string * option string * option string) :=
    for_each opts (None, None, None, None)
      (fun '(eval_file, debug_out, fname_ttrees_out, cfg_file) '(opt, arg) =>
        if String.eqb opt "-e" then
          ret (Some arg, debug_out, fname_ttrees_out, cfg_file)
        else if String.eqb opt "-d" then
          emit (FileStreamW arg) ;;;
          ret (eval_file, Some arg, fname_ttrees_out, cfg_file)
        else if String.eqb opt "-w" then
          ret (eval_file, debug_out, Some arg, cfg_file)
        else if String.eqb opt "-c" then
          ret (eval_file, debug_out, fname_ttrees_out, Some arg)
        else ret (eval_file, debug_out, fname_ttrees_out, cfg_file)).

(** The action once its options are read. *)
Definition asearch_gen_body (files : list string)
    (eval_file debug_out fname_ttrees_out cfg_file : option string) : M unit :=
  if negb (length files =? 3)%nat
  then sys_exit ("Invalid arguments." +:+ nl +:+ usage) else
  match files with
  | [fname_cand_model; fname_rank_model; fname_da_test] =>
      log_info "Initializing..." ;;;
      emit (CandgenLoad fname_cand_model) ;;;
      emit (RankerLoad fname_rank_model) ;;;
      do cfg <-- match cfg_file with
                 | Some f => if String.eqb f "" then ret None
                             else emit (ConfigRead f) ;;; ret (Some f)
                 | None => ret None
                 end ;;
      let tgen := mkASearch cfg fname_cand_model debug_out
                    (PerceptronRanker fname_rank_model) in
      log_info "Generating..." ;;;
      emit (ReadDas fname_da_test) ;;;
      let das := read_das fname_da_test in
      do gen_doc <-- match eval_file with
                     | None => asearch_gen_just_generate tgen das
                     | Some f => asearch_gen_evaluate tgen das f
                     end ;;
      write_output fname_ttrees_out gen_doc
  | _ => unpack_error
  end.

Definition asearch_gen (args : list string) : M unit :=
  do (opts, files) <-- lift (getopt args "e:d:") ;;
  do (eval_file, debug_out, fname_ttrees_out, cfg_file) <-- asearch_gen_options opts ;;
  asearch_gen_body files eval_file debug_out fname_ttrees_out cfg_file.

(** *** [__main__] *)

(** The [if]/[elif] chain on the action name. *)
Definition action_of_name (action : string) : option Action :=
  if String.eqb action "candgen_train" then Some ACandgenTrain
  else if String.eqb action "logregrank_create_data" then Some ALogregrankCreateData
  else if String.eqb action "logregrank_train" then Some ALogregrankTrain
  else if String.eqb action "percrank_train" then Some APercrankTrain
  else if String.eqb action "random_gen" then Some ASampleGen
  else if String.eqb action "asearch_gen" then Some AASearchGen
  else None.

Definition run_action (a : Action) (args : list string) : M unit :=
  match a with
  | ACandgenTrain => candgen_train args
  | ALogregrankCreateData => logregrank_create_data args
  | ALogregrankTrain => logregrank_train args
  | APercrankTrain => percrank_train args
  | ASampleGen => sample_gen args
  | AASearchGen => asearch_gen args
  end.

Definition main (argv : list string) : M unit :=
  seed 1206 ;;;
  if (length argv <? 3)%nat then sys_exit usage else
  let action := nth 1 argv "" in
  let args := drop 2 argv in
  match action_of_name action with
  | Some a => run_action a args
  | None => sys_exit ("ERROR: Unknown action: " +:+ action +:+ usage)
  end ;;;
  log_info "Done.".

End Driver.

Arguments mkWorld {RngState} rng trace.
Arguments rng {RngState} w.
Arguments trace {RngState} w.
Arguments ret {RngState A} a.
Arguments bind {RngState A B} m k.
Arguments lift {RngState A} o.
Arguments sys_exit {RngState A} msg.
Arguments emit {RngState} e.
Arguments log_info {RngState} msg.
Arguments seed {RngState} random_seed n.
Arguments for_each {RngState A S} l s body.
Arguments unpack_error {RngState A}.
Arguments write_output {RngState} fname_ttrees_out gen_doc.
Arguments ttrees_from_doc {RngState} ttrees_of_none doc.
Arguments candgen_train_options {RngState} opts.
Arguments logregrank_create_data_options {RngState} opts.
Arguments percrank_train_options {RngState} opts.
Arguments sample_gen_options {RngState} opts.
Arguments asearch_gen_options {RngState} opts.
Arguments candgen_train {RngState} args.
Arguments logregrank_create_data {RngState} args.
Arguments logregrank_train {RngState} args.
Arguments percrank_train {RngState} args.
Arguments sampling_generate_tree {RngState} sampling_tree tgen da gen_doc.
Arguments asearch_generate_tree {RngState} asearch_tree tgen da gen_doc gold_ttree.
Arguments sample_gen_generate {RngState} sampling_tree tgen das num_to_generate.
Arguments sample_gen_evaluate {RngState} read_ttrees ttrees_of_none
  oracle_eval_file gen_doc num_to_generate.
Arguments sample_gen {RngState} read_das read_ttrees ttrees_of_none sampling_tree args.
Arguments asearch_gen_just_generate {RngState} asearch_tree tgen das.
Arguments asearch_gen_evaluate {RngState} read_ttrees ttrees_of_none asearch_tree
  tgen das eval_file.
Arguments asearch_gen_body {RngState} read_das read_ttrees ttrees_of_none asearch_tree
  files eval_file debug_out fname_ttrees_out cfg_file.
Arguments asearch_gen {RngState} read_das read_ttrees ttrees_of_none asearch_tree args.
Arguments run_action {RngState} read_das read_ttrees ttrees_of_none sampling_tree
  asearch_tree a args.
Arguments main {RngState} random_seed read_das read_ttrees ttrees_of_none
  sampling_tree asearch_tree argv.

(** ** The vocabulary of the command surface *)

(** The option string an action hands to [getopt]; [logregrank_train]
    takes its arguments as they are. *)
Definition shortopts_of (a : Action) : option string :=
  match a with
  | ACandgenTrain => Some "p:"
  | ALogregrankCreateData => Some "h:"
  | ALogregrankTrain => None
  | APercrankTrain => Some "c:d:"
  | ASampleGen => Some "r:n:o:w:"
  | AASearchGen => Some "e:d:"
  end.

(** The number of positional arguments an action insists on. *)
Definition expected_files (a : Action) : nat :=
  match a with
  | ACandgenTrain => 3
  | ALogregrankCreateData => 5
  | ALogregrankTrain => 3
  | APercrankTrain => 4
  | ASampleGen => 2
  | AASearchGen => 3
  end.

(** The positional (non-option) arguments of an invocation. *)
Definition positional (a : Action) (args : list string) : Outcome (list string) :=
  match shortopts_of a with
  | None => Ret args
  | Some shortopts =>
      match getopt args shortopts with
      | Ret (_, files) => Ret files
      | SysExit msg => SysExit msg
      | Raise e => Raise e
      end
  end.

(** The options of an invocation, as [getopt] returns them. *)
Definition options (a : Action) (args : list string) : list (string * string) :=
  match shortopts_of a with
  | None => []
  | Some shortopts =>
      match getopt args shortopts with
      | Ret (opts, _) => opts
      | _ => []
      end
  end.

(** The message an action exits with on a wrong argument count. *)
Definition usage_exit (a : Action) : string :=
  match a with
  | AASearchGen => "Invalid arguments." +:+ nl +:+ usage
  | _ => usage
  end.

(** The debug sinks an action opens while it walks its options. *)
Fixpoint debug_sinks (opts : list (string * string)) : list Event :=
  match opts with
  | [] => []
  | (opt, arg) :: rest =>
      if String.eqb opt "-d" then FileStreamW arg :: debug_sinks rest
      else debug_sinks rest
  end.

(** Reading a planner configuration and writing the generated trees. *)
Definition config_or_output (e : Event) : bool :=
  match e with
  | ConfigRead _ | WriteYaml _ _ => true
  | _ => false
  end.

(** The option values an action converts with [int]. *)
Definition int_option (a : Action) (opt : string) : bool :=
  match a with
  | ACandgenTrain => String.eqb opt "-p"
  | ASampleGen => String.eqb opt "-n"
  | _ => false
  end.

(** An option that [getopt] returns carries a letter of the option
    string. *)
Definition recognized (shortopts : string) (oa : string * string) : Prop :=
  exists c b, oa.1 = "-" +:+ chr c /\ short_has_arg c shortopts = Ret b.

(** What a computation may leave in the trace. *)
Definition emits_only {RngState : Type} (P : Event -> Prop) {A : Type}
    (c : M RngState A) : Prop :=
  forall w, exists evs, trace (c w).2 = (trace w ++ evs)%list /\ Forall P evs.

(** ** The vocabulary of generation and evaluation *)

(** [k] successive [generate_tree] calls for one dialogue act: the trees
    they append and the generator state they leave. *)
Fixpoint draws {RngState : Type}
    (sampling_tree : SamplingPlanner -> DA -> RngState -> SyntaxTree * RngState)
    (tgen : SamplingPlanner) (da : DA) (k : nat) (r : RngState)
  : list SyntaxTree * RngState :=
  match k with
  | O => ([], r)
  | S k' =>
      let '(t, r1) := sampling_tree tgen da r in
      let '(ts, r2) := draws sampling_tree tgen da k' r1 in
      (t :: ts, r2)
  end.

(** The same for every dialogue act in turn: one run of trees each. *)
Fixpoint draws_all {RngState : Type}
    (sampling_tree : SamplingPlanner -> DA -> RngState -> SyntaxTree * RngState)
    (tgen : SamplingPlanner) (das : list DA) (k : nat) (r : RngState)
  : list (list SyntaxTree) * RngState :=
  match das with
  | [] => ([], r)
  | da :: rest =>
      let '(ts, r1) := draws sampling_tree tgen da k r in
      let '(tss, r2) := draws_all sampling_tree tgen rest k r1 in
      (ts :: tss, r2)
  end.

(** The document variable of the driver: [None] until a tree is appended. *)
Definition as_doc (trees : list SyntaxTree) : option Doc :=
  match trees with
  | [] => None
  | _ => Some trees
  end.

(** One element of the list the oracle loop maximizes over. *)
Definition scored (gold_tree gen_tree : SyntaxTree) : Q * nat * nat * nat :=
  let '(c, p, g) := tp_fp_fn gold_tree gen_tree in (f1_from_counts c p g, c, p, g).

(** The F1 of a generated tree against a gold tree. *)
Definition tree_f1 (gold_tree gen_tree : SyntaxTree) : Q :=
  let '(tp, fp, fn) := tp_fp_fn gold_tree gen_tree in
  f1_from_counts tp fn fp.

(** The first tree of a run whose F1 against the gold tree no other tree
    of the run exceeds. *)
Definition best_tree (gold_tree : SyntaxTree) (gen_trees : list SyntaxTree)
  : SyntaxTree :=
  match gen_trees with
  | [] => []
  | t :: rest => py_max_from (tree_f1 gold_tree) t rest
  end.

Definition add_counts (a b : nat * nat * nat) : nat * nat * nat :=
  (a.1.1 + b.1.1, a.1.2 + b.1.2, a.2 + b.2)%nat.

Definition sum_counts (l : list (nat * nat * nat)) : nat * nat * nat :=
  foldr add_counts (0, 0, 0)%nat l.

(** ** A small world to run the driver in *)

Definition leaf (l : LabelBundle) : SyntaxTree :=
  [{| parent := None; children := []; label := l |}].

Definition inform (slot value : string) : DAItem :=
  {| da_type := "inform"; da_slot := slot; da_value := value |}.

(** The generator state is a counter; a sampled tree shows its parity. *)
Definition demo_seed (n : Z) : Z := n.

Definition demo_read_das (fname : string) : list DA :=
  if String.eqb fname "das" then [[inform "food" "thai"]]
  else if String.eqb fname "das2" then [[inform "food" "thai"]; [inform "area" "north"]]
  else [].

Definition demo_read_ttrees (fname : string) : Doc :=
  if String.eqb fname "gold" then [leaf "odd"]
  else if String.eqb fname "gold3" then [leaf "odd"; leaf "even"; leaf "odd"]
  else [].

Definition demo_sampling_tree (tgen : SamplingPlanner) (da : DA) (r : Z)
  : SyntaxTree * Z :=
  (leaf (if Z.even r then "even" else "odd"), (r + 1)%Z).

Definition demo_asearch_tree (tgen : ASearchPlanner) (da : DA)
    (gold_ttree : option SyntaxTree) : SyntaxTree :=
  leaf "even".

Definition demo_ttrees_of_none : Outcome (list SyntaxTree) :=
  Raise (AttributeError "'NoneType' object has no attribute 'bundles'").

Definition demo_run_action (a : Action) (args : list string) (w : World Z)
  : Outcome unit * World Z :=
  run_action demo_read_das demo_read_ttrees demo_ttrees_of_none
    demo_sampling_tree demo_asearch_tree a args w.

Definition demo_main (argv : list string) (w : World Z) : Outcome unit * World Z :=
  main demo_seed demo_read_das demo_read_ttrees demo_ttrees_of_none
    demo_sampling_tree demo_asearch_tree argv w.

(** ** The A* planner ([planner.ASearchPlanner]) *)

(** A proposed child attachment: the child's label bundle, its insertion
    position among the siblings, its empirical probability and its
    compatibility flag against the dialogue act. *)
Record Candidate := mkCandidate {
  cand_label : LabelBundle;
  cand_pos : nat;
  cand_prob : Q;
  cand_compatible : bool
}.

(** What the planner is constructed from.  The candidate generator and the
    global ranker are trained models, read-only during generation; reals
    are rationals, so the logarithm comes with the model; the predicates
    that the visible material leaves open (when a node still takes
    children, when obligatory children are pending, which triples of the
    dialogue act a label bundle verbalizes) are part of the
    configuration. *)
Record PlannerModel := mkPlannerModel {
  get_candidates : LabelBundle -> DA -> list Candidate;
  ranker_score : SyntaxTree -> DA -> Q;
  log_prob : Q -> Q;
  is_open : SyntaxTree -> nat -> bool;
  pending_obligatory : SyntaxTree -> bool;
  realizes : LabelBundle -> DAItem -> bool;
  root_label : LabelBundle
}.

(** A scored partial tree. *)
Record SearchState := mkState {
  st_tree : SyntaxTree;
  st_logprob : Q;
  st_score : Q;
  st_residual : DA
}.

(** The closed set's key: the labels of the tree (compared as a multiset)
    and the residual dialogue act (compared as a set). *)
Definition Signature : Type := list LabelBundle * DA.

Record Search := mkSearch {
  frontier : list SearchState;
  closed : list Signature;
  best : SearchState;
  seen : list SearchState
}.

Inductive Progress :=
| Running (st : Search)
| Goal (s : SearchState)
| Exhausted (st : Search).

Definition insert_at {A : Type} (i : nat) (x : A) (l : list A) : list A :=
  take i l ++ x :: drop i l.

Definition count_label (x : LabelBundle) (l : list LabelBundle) : nat :=
  length (filter (fun y => String.eqb x y = true) l).

Definition same_multiset (l1 l2 : list LabelBundle) : bool :=
  forallb (fun x => (count_label x l1 =? count_label x l2)%nat) (l1 ++ l2).

Definition da_mem (x : DAItem) (d : DA) : bool := existsb (DAItem_eqb x) d.

Definition same_set (d1 d2 : DA) : bool :=
  forallb (fun x => da_mem x d2) d1 && forallb (fun x => da_mem x d1) d2.

Definition same_signature (a b : Signature) : bool :=
  same_multiset a.1 b.1 && same_set a.2 b.2.

Section ASearch.

Variable m : PlannerModel.

(** Modelled from the spec: the planner is not among the sources.
    Priority of a state; lower is better. *)
Definition cost (s : SearchState) : Q := (- st_logprob s + - st_score s)%Q.

Definition signature (s : SearchState) : Signature :=
  (map label (st_tree s), st_residual s).

Definition in_closed (sg : Signature) (cl : list Signature) : bool :=
  existsb (same_signature sg) cl.

(** Modelled from the spec: a goal state has an empty residual and no
    node with pending obligatory children. *)
Definition is_goal (s : SearchState) : bool :=
  match st_residual s with
  | [] => negb (pending_obligatory m (st_tree s))
  | _ => false
  end.

(** Modelled from the spec: a candidate is compatible with the
    still-uncovered slots when its flag is set and its label bundle
    verbalizes one of them; applying it takes those out of the
    residual. *)
Definition compatible (residual : DA) (c : Candidate) : bool :=
  cand_compatible c && existsb (realizes m (cand_label c)) residual.

Definition reduce (residual : DA) (c : Candidate) : DA :=
  filter (fun x => realizes m (cand_label c) x = false) residual.

Definition add_child (t : SyntaxTree) (p : nat) (c : Candidate) : SyntaxTree :=
  alter (fun n => {| parent := parent n;
                     children := insert_at (cand_pos c) (length t) (children n);
                     label := label n |}) p t
  ++ [{| parent := Some p; children := []; label := cand_label c |}].

Definition apply_candidate (da : DA) (s : SearchState) (p : nat) (c : Candidate)
  : SearchState :=
  let t := add_child (st_tree s) p c in
  {| st_tree := t;
     st_logprob := (st_logprob s + log_prob m (cand_prob c))%Q;
     st_score := ranker_score m t da;
     st_residual := reduce (st_residual s) c |}.

(** Modelled from the spec: one successor per open node and compatible
    candidate of that node's context (parent label bundle, dialogue
    act). *)
Definition expand (da : DA) (s : SearchState) : list SearchState :=
  flat_map (fun p =>
    match st_tree s !! p with
    | Some n =>
        if is_open m (st_tree s) p then
          map (apply_candidate da s p)
              (filter (fun c => compatible (st_residual s) c = true)
                      (get_candidates m (label n) da))
        else []
    | None => []
    end) (seq 0 (length (st_tree s))).

(** The lowest-cost entry of a non-empty frontier (the earliest among
    equals) and the frontier without it. *)
Fixpoint pop_min_aux (s : SearchState) (l : list SearchState)
  : SearchState * list SearchState :=
  match l with
  | [] => (s, [])
  | x :: r =>
      let '(lo, rest) := pop_min_aux x r in
      if Qlt_bool (cost lo) (cost s) then (lo, s :: rest) else (s, x :: r)
  end.

Definition pop_min (l : list SearchState) : option (SearchState * list SearchState) :=
  match l with
  | [] => None
  | s :: r => Some (pop_min_aux s r)
  end.

Definition better (a b : SearchState) : SearchState :=
  if Qlt_bool (cost b) (cost a) then b else a.

Definition single_node_tree : SyntaxTree :=
  [{| parent := None; children := []; label := root_label m |}].

Definition initial_state (da : DA) : SearchState :=
  {| st_tree := single_node_tree;
     st_logprob := 0;
     st_score := ranker_score m single_node_tree da;
     st_residual := da |}.

Definition initial_search (da : DA) : Search :=
  {| frontier := [initial_state da];
     closed := [];
     best := initial_state da;
     seen := [initial_state da] |}.

(** Modelled from the spec: pop the lowest-cost entry; a goal is
    returned at once; a state whose signature is closed is dropped;
    any other state is closed and its successors are pushed.  An empty
    frontier ends the search with the best state seen so far. *)
Definition search_step (da : DA) (st : Search) : Progress :=
  match pop_min (frontier st) with
  | None => Exhausted st
  | Some (s, rest) =>
      if is_goal s then Goal s
      else if in_closed (signature s) (closed st) then
        Running {| frontier := rest; closed := closed st;
                   best := best st; seen := seen st |}
      else
        let succ := expand da s in
        Running {| frontier := rest ++ succ;
                   closed := signature s :: closed st;
                   best := fold_left better succ (best st);
                   seen := seen st ++ succ |}
  end.

Fixpoint search_run (fuel : nat) (da : DA) (st : Search) : Progress :=
  match fuel with
  | O => Running st
  | S fuel' =>
      match search_step da st with
      | Running st' => search_run fuel' da st'
      | done => done
      end
  end.

(** The number of states below a state whose residual has at most [n]
    triples, itself included. *)
Fixpoint weight (n : nat) (da : DA) (s : SearchState) : nat :=
  match n with
  | O => 1
  | S n' => S (list_sum (map (weight n' da) (expand da s)))
  end.

Definition search_fuel (da : DA) : nat :=
  S (weight (length da) da (initial_state da)).

Definition result_state (p : Progress) : SearchState :=
  match p with
  | Goal s => s
  | Exhausted st => best st
  | Running st => best st
  end.

(** The measure of a frontier, and what holds of a search throughout:
    the best state is one the search has seen and none it has seen is
    cheaper; the frontier holds only states it has seen; every tree it
    has seen has the root it started from. *)
Definition potential (da : DA) (l : list SearchState) : nat :=
  list_sum (map (fun s => weight (length (st_residual s)) da s) l).

Definition rooted (t : SyntaxTree) : Prop :=
  exists root rest, t = root :: rest /\ parent root = None
                    /\ label root = root_label m.

Definition search_inv (st : Search) : Prop :=
  best st ∈ seen st
  /\ (forall s, s ∈ seen st -> (cost (best st) <= cost s)%Q)
  /\ (forall s, s ∈ frontier st -> s ∈ seen st)
  /\ (forall s, s ∈ seen st -> rooted (st_tree s)).

(** The tree a [generate_tree] call appends for [da]. *)
Definition astar_tree (da : DA) : SyntaxTree :=
  st_tree (result_state (search_run (search_fuel da) da (initial_search da))).

End ASearch.

(** ** Two planners to run the search with *)

(** A label bundle verbalizes the triples whose value it names. *)
Definition demo_planner : PlannerModel :=
  {| get_candidates := fun l d =>
       if String.eqb l "" then
         [mkCandidate "thai" 0 (1 # 2) true; mkCandidate "cheap" 0 (1 # 2) true]
       else if String.eqb l "thai" then [mkCandidate "north" 0 1 true]
       else [];
     ranker_score := fun t d => Qnat (length t);
     log_prob := fun p => (p - 1)%Q;
     is_open := fun t p => true;
     pending_obligatory := fun t => false;
     realizes := fun l i => String.eqb l (da_value i);
     root_label := "" |}.

(** The same planner with a generator that proposes nothing. *)
Definition starved_planner : PlannerModel :=
  {| get_candidates := fun l d => [];
     ranker_score := ranker_score demo_planner;
     log_prob := log_prob demo_planner;
     is_open := is_open demo_planner;
     pending_obligatory := pending_obligatory demo_planner;
     realizes := realizes demo_planner;
     root_label := root_label demo_planner |}.

(** ** The vocabulary of the option loops and of whole runs *)

(** The name the dispatcher knows an action by. *)
Definition action_name (a : Action) : string :=
  match a with
  | ACandgenTrain => "candgen_train"
  | ALogregrankCreateData => "logregrank_create_data"
  | ALogregrankTrain => "logregrank_train"
  | APercrankTrain => "percrank_train"
  | ASampleGen => "random_gen"
  | AASearchGen => "asearch_gen"
  end.

(** The value of the last occurrence of an option. *)
Fixpoint last_option (key : string) (opts : list (string * string)) : option string :=
  match opts with
  | [] => None
  | (opt, arg) :: rest =>
      match last_option key rest with
      | Some v => Some v
      | None => if String.eqb opt key then Some arg else None
      end
  end.

(** The value of the first occurrence of an option that [int] refuses. *)
Fixpoint first_bad_int (key : string) (opts : list (string * string)) : option string :=
  match opts with
  | [] => None
  | (opt, arg) :: rest =>
      if String.eqb opt key then
        match parse_int arg with
        | Some _ => first_bad_int key rest
        | None => Some arg
        end
      else first_bad_int key rest
  end.

(** The integer an option ends up with: that of its last occurrence, or
    the default. *)
Definition last_int (key : string) (default : Z) (opts : list (string * string)) : Z :=
  match last_option key opts with
  | Some v => match parse_int v with Some n => n | None => default end
  | None => default
  end.

(** What [sample_gen] builds and leaves in the trace from its options. *)
Definition ranker_of (ranker_model : option string) (fname_cand_model : string)
  : Ranker :=
  match ranker_model with
  | Some m => LogisticRegressionRanker m
  | None => CandgenAsRanker fname_cand_model
  end.

Definition ranker_events (ranker_model : option string) : list Event :=
  match ranker_model with
  | Some m => [RankerLoad m]
  | None => []
  end.

Definition write_events (fname_ttrees_out : option string) (gen_doc : option Doc)
  : list Event :=
  match fname_ttrees_out with
  | Some f => [LogInfo "Writing output..."; WriteYaml f gen_doc]
  | None => []
  end.

(** The calls that train or save a model or write training data. *)
Definition modifies_model (e : Event) : bool :=
  match e with
  | CandgenTrain _ _ _ | CandgenSave _ | LogRegCreateData _ _ _ _ _ _
  | LogRegTrain _ _ | PercTrain _ _ _ _ _ | RankerSave _ => true
  | _ => false
  end.

(** A word that [getopt] takes for an option word. *)
Definition option_word (a : string) : bool :=
  startswith "-" a && negb (String.eqb a "-").

(** * Properties *)

(** ** Precision, recall and F1 *)

Lemma Qred_zero_iff (q : Q) : (q == 0)%Q -> Qred q = 0%Q.
Proof. intros H. change 0%Q with (Qred 0). by apply Qred_complete. Qed.

Lemma ratio_zero (b : nat) : ratio 0 b = 0%Q.
Proof.
  unfold ratio. destruct (b =? 0)%nat; [done|].
  apply Qred_zero_iff. unfold Qdiv. apply Qmult_0_l.
Qed.

Lemma p_r_f1_not_empty (c g p : nat) :
  (c + g =? 0)%nat && (c + p =? 0)%nat = false ->
  p_r_f1_from_counts c g p =
    (ratio c (c + p), ratio c (c + g),
     if Qeq_bool (ratio c (c + p) + ratio c (c + g)) 0 then 0%Q
     else Qred (2 * ratio c (c + p) * ratio c (c + g)
                / (ratio c (c + p) + ratio c (c + g)))).
Proof. intros H. unfold p_r_f1_from_counts. by rewrite H. Qed.

(** C6. The boundary conventions of [p_r_f1_from_counts]: no correct, no
    gold and no predicted item give (1, 1, 1); no correct item with some
    gold and some predicted items gives (0, 0, 0); in general the result is
    (1, 1, 1) whenever the gold and the predicted set are both empty, and
    F1 is 0 whenever precision and recall are both 0. *)
Theorem p_r_f1_from_counts_boundary :
  p_r_f1_from_counts 0 0 0 = (1%Q, 1%Q, 1%Q)
  /\ (forall g p : nat, (0 < g)%nat -> (0 < p)%nat ->
        p_r_f1_from_counts 0 g p = (0%Q, 0%Q, 0%Q))
  /\ (forall c g p : nat, (c + g = 0)%nat -> (c + p = 0)%nat ->
        p_r_f1_from_counts c g p = (1%Q, 1%Q, 1%Q))
  /\ (forall c g p : nat,
        (p_r_f1_from_counts c g p).1.1 = 0%Q ->
        (p_r_f1_from_counts c g p).1.2 = 0%Q ->
        (p_r_f1_from_counts c g p).2 = 0%Q
        /\ f1_from_counts c g p = 0%Q).
Proof.
  split; [reflexivity|]. split; [|split].
  - intros g p Hg Hp. rewrite p_r_f1_not_empty.
    + rewrite !ratio_zero. reflexivity.
    + apply andb_false_iff. left. apply Nat.eqb_neq. lia.
  - intros c g p Hg Hp. unfold p_r_f1_from_counts.
    rewrite Hg, Hp. reflexivity.
  - intros c g p. unfold f1_from_counts.
    destruct ((c + g =? 0)%nat && (c + p =? 0)%nat) eqn:E.
    + unfold p_r_f1_from_counts. rewrite E. simpl. discriminate.
    + rewrite (p_r_f1_not_empty _ _ _ E). simpl. intros -> ->. done.
Qed.

Lemma p_r_f1_from_counts_boundary_witness :
  p_r_f1_from_counts 0 2 3 = (0%Q, 0%Q, 0%Q)
  /\ p_r_f1_from_counts 0 0 0 = (1%Q, 1%Q, 1%Q)
  /\ f1_from_counts 0 2 3 = 0%Q.
Proof.
  destruct p_r_f1_from_counts_boundary as (_ & Hz & He & Hf).
  split; [apply Hz; lia|]. split; [apply He; reflexivity|].
  apply (Hf 0 2 3)%nat; reflexivity.
Defined.

(** ** Node counts *)


Lemma size_as_filter (l : list NodePair) (X : gset NodePair)
    (P : NodePair -> Prop) `{!forall x, Decision (P x)} :
  (forall x, x ∈ X <-> x ∈ l /\ P x) ->
  size X = length (filter P (remove_dups l)).
Proof.
  intros HX. unfold size, set_size. simpl.
  apply Permutation_length, NoDup_Permutation.
  - apply NoDup_elements.
  - apply NoDup_filter, NoDup_remove_dups.
  - intros x. rewrite elem_of_elements, list_elem_of_filter, elem_of_remove_dups, HX.
    tauto.
Qed.

Lemma elem_of_pair_set (t : SyntaxTree) (x : NodePair) :
  x ∈ pair_set t <-> x ∈ tree_pairs t.
Proof. unfold pair_set. apply elem_of_list_to_set. Qed.


(** ** [max] and F1 *)

Lemma Qlt_bool_iff (x y : Q) : Qlt_bool x y = true <-> (x < y)%Q.
Proof.
  unfold Qlt_bool. rewrite negb_true_iff. split.
  - intros H. apply Qnot_le_lt. intros Hle. apply Qle_bool_iff in Hle. congruence.
  - intros H. destruct (Qle_bool y x) eqn:E; [|done].
    apply Qle_bool_iff in E. by apply Qlt_not_le in H.
Qed.

Lemma Qlt_bool_false (x y : Q) : Qlt_bool x y = false -> (y <= x)%Q.
Proof.
  unfold Qlt_bool. rewrite negb_false_iff. apply Qle_bool_iff.
Qed.

Section PyMax.

Context {A : Type} (key : A -> Q).

Lemma py_max_from_in (l : list A) : forall b, py_max_from key b l ∈ b :: l.
Proof.
  induction l as [|x l IH]; intros b; simpl; [by left|].
  pose proof (IH (if Qlt_bool (key b) (key x) then x else b)) as H.
  apply elem_of_cons in H as [H|H].
  - rewrite H. destruct (Qlt_bool (key b) (key x)); [right|]; by left.
  - by do 2 right.
Qed.

Lemma py_max_from_ge (l : list A) :
  forall b, (key b <= key (py_max_from key b l))%Q.
Proof.
  induction l as [|x l IH]; intros b; simpl; [apply Qle_refl|].
  destruct (Qlt_bool (key b) (key x)) eqn:E; [|apply IH].
  apply Qlt_bool_iff in E. eapply Qle_trans; [apply Qlt_le_weak, E | apply IH].
Qed.

Lemma py_max_from_max (l : list A) :
  forall b y, y ∈ b :: l -> (key y <= key (py_max_from key b l))%Q.
Proof.
  induction l as [|x l IH]; intros b y Hy; simpl.
  - apply list_elem_of_singleton in Hy as ->. apply Qle_refl.
  - apply elem_of_cons in Hy as [->|Hy]; [apply (py_max_from_ge (x :: l))|].
    destruct (Qlt_bool (key b) (key x)) eqn:E.
    + apply IH, Hy.
    + apply elem_of_cons in Hy as [->|Hy].
      * eapply Qle_trans; [apply Qlt_bool_false, E | apply py_max_from_ge].
      * apply IH. by right.
Qed.

Lemma py_max_from_ext (key' : A -> Q) (l : list A) :
  (forall x, key x = key' x) ->
  forall b, py_max_from key b l = py_max_from key' b l.
Proof.
  intros Hk. induction l as [|x l IH]; intros b; simpl; [done|].
  by rewrite !Hk, IH.
Qed.

End PyMax.

Lemma py_max_from_map {A B : Type} (f : A -> B) (key : B -> Q) (l : list A) :
  forall b, py_max_from key (f b) (map f l) = f (py_max_from (fun x => key (f x)) b l).
Proof.
  induction l as [|x l IH]; intros b; simpl; [done|].
  rewrite <- IH. by destruct (Qlt_bool (key (f b)) (key (f x))).
Qed.

Lemma ratio_nonneg (a b : nat) : (0 <= ratio a b)%Q.
Proof.
  unfold ratio. destruct (b =? 0)%nat; [apply Qle_refl|].
  rewrite Qred_correct. unfold Qnat, Qdiv. apply Qmult_le_0_compat.
  - unfold Qle. simpl. lia.
  - apply Qinv_le_0_compat. unfold Qle. simpl. lia.
Qed.

(** F1 does not tell gold from predicted. *)
Lemma f1_from_counts_sym (c a b : nat) : f1_from_counts c a b = f1_from_counts c b a.
Proof.
  unfold f1_from_counts, p_r_f1_from_counts.
  rewrite (andb_comm (c + a =? 0)%nat).
  destruct ((c + b =? 0)%nat && (c + a =? 0)%nat); [done|]. simpl.
  set (x := ratio c (c + b)). set (y := ratio c (c + a)).
  assert (Qeq_bool (x + y) 0 = Qeq_bool (y + x) 0) as ->.
  { destruct (Qeq_bool (y + x) 0) eqn:E.
    - apply Qeq_bool_iff. apply Qeq_bool_iff in E. rewrite <- E. ring.
    - destruct (Qeq_bool (x + y) 0) eqn:E'; [|done].
      apply Qeq_bool_iff in E'. assert (y + x == 0)%Q as H by (rewrite <- E'; ring).
      apply Qeq_bool_iff in H. congruence. }
  destruct (Qeq_bool (y + x) 0); [done|].
  apply Qred_complete.
  assert (x + y == y + x)%Q as -> by ring.
  assert (2 * x * y == 2 * y * x)%Q as -> by ring. reflexivity.
Qed.

(** ** The oracle loop *)

Lemma scored_counts_map (gold_tree : SyntaxTree) (gen_trees : list SyntaxTree) :
  scored_counts gold_tree gen_trees = map (scored gold_tree) gen_trees.
Proof.
  unfold scored_counts. rewrite map_map. apply map_ext. intros t.
  unfold scored. by destruct (tp_fp_fn gold_tree t) as [[c p] g].
Qed.

Lemma score_key_scored (gold_tree t : SyntaxTree) :
  score_key (scored gold_tree t) = tree_f1 gold_tree t.
Proof.
  unfold scored, tree_f1, score_key.
  destruct (tp_fp_fn gold_tree t) as [[c p] g]. simpl. apply f1_from_counts_sym.
Qed.

Lemma py_max_scored (gold_tree t : SyntaxTree) (rest : list SyntaxTree) :
  py_max score_key (scored_counts gold_tree (t :: rest))
  = Ret (scored gold_tree (best_tree gold_tree (t :: rest))).
Proof.
  rewrite scored_counts_map. simpl. f_equal.
  rewrite py_max_from_map. f_equal.
  apply py_max_from_ext. intros x. apply score_key_scored.
Qed.

Lemma best_tree_is_best (gold_tree : SyntaxTree) (gen_trees : list SyntaxTree) :
  gen_trees <> [] ->
  best_tree gold_tree gen_trees ∈ gen_trees
  /\ forall t, t ∈ gen_trees ->
       (tree_f1 gold_tree t <= tree_f1 gold_tree (best_tree gold_tree gen_trees))%Q.
Proof.
  destruct gen_trees as [|t rest]; [done|]. intros _. simpl. split.
  - apply py_max_from_in.
  - intros t' Ht'. by apply py_max_from_max.
Qed.

Lemma add_counts_assoc (a b c : nat * nat * nat) :
  add_counts (add_counts a b) c = add_counts a (add_counts b c).
Proof.
  destruct a as [[? ?] ?], b as [[? ?] ?], c as [[? ?] ?].
  unfold add_counts. simpl. f_equal; [f_equal|]; lia.
Qed.

Lemma add_counts_zero (a : nat * nat * nat) : add_counts a (0, 0, 0)%nat = a.
Proof. destruct a as [[? ?] ?]. unfold add_counts. simpl. f_equal; [f_equal|]; lia. Qed.

Lemma oracle_counts_spec (pairs : list (SyntaxTree * list SyntaxTree)) :
  Forall (fun gc => gc.2 <> []) pairs ->
  forall acc,
    oracle_counts pairs acc
    = Ret (add_counts acc
             (sum_counts (map (fun gc => tp_fp_fn gc.1 (best_tree gc.1 gc.2)) pairs))).
Proof.
  induction 1 as [|[gold chunk] pairs Hne _ IH]; intros acc.
  - simpl. by rewrite add_counts_zero.
  - destruct chunk as [|t rest]; [done|].
    cbn [oracle_counts map sum_counts foldr fst snd].
    rewrite py_max_scored. unfold scored.
    destruct (tp_fp_fn gold (best_tree gold (t :: rest))) as [[tc tp] tg].
    destruct acc as [[correct predicted] gold_n].
    rewrite IH. by rewrite <- add_counts_assoc.
Qed.

Lemma node_counts_spec (pairs : list (SyntaxTree * SyntaxTree)) :
  forall acc,
    node_counts pairs acc
    = add_counts acc (sum_counts (map (fun eg => tp_fp_fn eg.1 eg.2) pairs)).
Proof.
  induction pairs as [|[e g] pairs IH]; intros acc.
  - simpl. by rewrite add_counts_zero.
  - cbn [node_counts map sum_counts foldr fst snd].
    destruct (tp_fp_fn e g) as [[tc tp] tg].
    destruct acc as [[correct predicted] gold_n].
    rewrite IH. by rewrite <- add_counts_assoc.
Qed.

(** ** Chunks and [zip] *)

Lemma chunk_list_aux_concat {A : Type} (k : nat) (tss : list (list A)) :
  (0 < k)%nat ->
  Forall (fun ts => length ts = k) tss ->
  forall fuel, (length tss <= fuel)%nat -> chunk_list_aux fuel (concat tss) k = tss.
Proof.
  intros Hk. induction 1 as [|ts tss Hts _ IH]; intros fuel Hfuel; simpl.
  - by destruct fuel.
  - destruct fuel as [|fuel]; [simpl in Hfuel; lia|]. simpl.
    destruct (ts ++ concat tss) as [|x l] eqn:E.
    { apply (f_equal length) in E. rewrite length_app in E. simpl in E. lia. }
    rewrite <- E. rewrite take_app_length' by done.
    rewrite drop_app_length' by done. f_equal. apply IH. simpl in Hfuel. lia.
Qed.

Lemma chunk_list_concat {A : Type} (k : nat) (tss : list (list A)) :
  (0 < k)%nat ->
  Forall (fun ts => length ts = k) tss ->
  chunk_list (concat tss) k = tss.
Proof.
  intros Hk Hall. apply chunk_list_aux_concat; [done..|].
  clear -Hk Hall. induction Hall as [|ts tss Hts _ IH]; simpl; [lia|].
  rewrite length_app. lia.
Qed.

Lemma py_zip_truncate {A B : Type} (xs : list A) (ys : list B) :
  let k := (length xs `min` length ys)%nat in
  py_zip xs ys = py_zip (take k xs) (take k ys) /\ length (py_zip xs ys) = k.
Proof.
  unfold py_zip. revert ys. induction xs as [|x xs IH]; intros [|y ys]; simpl; try done.
  destruct (IH ys) as [H1 H2]. by rewrite <- H1, H2.
Qed.

(** ** [getopt] *)

Lemma do_shorts_recognized (shortopts : string) (next : option string)
    (optstring : string) :
  forall acc os b,
    Forall (recognized shortopts) acc ->
    do_shorts acc optstring shortopts next = Ret (os, b) ->
    Forall (recognized shortopts) os.
Proof.
  induction optstring as [|c rest IH]; intros acc os b Hacc; simpl.
  - intros [= <- _]. done.
  - destruct (short_has_arg c shortopts) as [[|]| |] eqn:E; try discriminate.
    + assert (Forall (recognized shortopts) (acc ++ [("-" +:+ chr c, default rest next)])).
      { apply Forall_app. split; [done|]. constructor; [|done]. by exists c, true. }
      destruct rest.
      * destruct next; [|discriminate]. intros [= <- _].
        apply Forall_app. split; [done|]. constructor; [|done]. by exists c, true.
      * intros [= <- _].
        apply Forall_app. split; [done|]. constructor; [|done]. by exists c, true.
    + apply IH. apply Forall_app. split; [done|]. constructor; [|done]. by exists c, false.
Qed.

Lemma getopt_recognized (shortopts : string) (args : list string) :
  forall opts files,
    getopt args shortopts = Ret (opts, files) ->
    Forall (recognized shortopts) opts.
Proof.
  remember (length args) as n eqn:Hn.
  revert args Hn. induction n as [n IH] using lt_wf_ind.
  intros [|a rest] Hn opts files; simpl.
  - intros [= <- _]. done.
  - destruct (startswith "-" a && negb (a =? "-")); [|intros [= <- _]; done].
    destruct (a =? "--"); [intros [= <- _]; done|].
    destruct (startswith "--" a); [discriminate|].
    destruct (do_shorts [] _ shortopts (head rest)) as [[os [|]]| |] eqn:E;
      try discriminate.
    + assert (Forall (recognized shortopts) os) as Hos
        by (eapply do_shorts_recognized; [|exact E]; done).
      destruct rest as [|b rest']; [intros [= <- _]; done|].
      destruct (getopt rest' shortopts) as [[os' fs]| |] eqn:E'; try discriminate.
      simpl. intros [= <- _]. apply Forall_app. split; [done|].
      eapply (IH (length rest')); [simpl in Hn; lia|done|exact E'].
    + assert (Forall (recognized shortopts) os) as Hos
        by (eapply do_shorts_recognized; [|exact E]; done).
      destruct (getopt rest shortopts) as [[os' fs]| |] eqn:E'; try discriminate.
      simpl. intros [= <- _]. apply Forall_app. split; [done|].
      eapply (IH (length rest)); [simpl in Hn; lia|done|exact E'].
Qed.

Lemma recognized_asearch (oa : string * string) :
  recognized "e:d:" oa -> oa.1 = "-e" \/ oa.1 = "-d".
Proof.
  intros (c & b & -> & Hc). simpl in Hc.
  destruct (Ascii.eqb_spec c "e") as [->|]; [by left|].
  destruct (Ascii.eqb_spec c ":") as [->|]; [discriminate|].
  destruct (Ascii.eqb_spec c "d") as [->|]; [by right|].
  discriminate.
Qed.

(** ** The command surface *)

Section DriverProperties.

Context {RngState : Type}.
Variable random_seed : Z -> RngState.
Variable read_das : string -> list DA.
Variable read_ttrees : string -> Doc.
Variable ttrees_of_none : Outcome (list SyntaxTree).
Variable sampling_tree : SamplingPlanner -> DA -> RngState -> SyntaxTree * RngState.
Variable asearch_tree : ASearchPlanner -> DA -> option SyntaxTree -> SyntaxTree.

Local Abbreviation run_action :=
  (run_action (RngState:=RngState) read_das read_ttrees ttrees_of_none sampling_tree asearch_tree).
Local Abbreviation main :=
  (main (RngState:=RngState) random_seed read_das read_ttrees ttrees_of_none sampling_tree asearch_tree).
Local Abbreviation sample_gen :=
  (sample_gen (RngState:=RngState) read_das read_ttrees ttrees_of_none sampling_tree).
Local Abbreviation asearch_gen :=
  (asearch_gen (RngState:=RngState) read_das read_ttrees ttrees_of_none asearch_tree).

(** *** Option loops *)

Lemma world_eta (w : World RngState) : {| rng := rng w; trace := trace w |} = w.
Proof. by destruct w. Qed.

Lemma candgen_train_options_spec (opts : list (string * string)) (w : World RngState) :
  (exists n, candgen_train_options opts w = (Ret n, w))
  \/ (exists v, In ("-p", v) opts /\ parse_int v = None
        /\ candgen_train_options opts w = (Raise (int_error v), w)).
Proof.
  unfold candgen_train_options. generalize 1%Z as acc.
  induction opts as [|[o v] opts IH]; intros acc; simpl.
  - left. by exists acc.
  - unfold bind at 1. destruct (String.eqb_spec o "-p") as [->|Hne].
    + unfold lift, py_int. destruct (parse_int v) as [n|] eqn:E.
      * destruct (IH n) as [H|(v' & Hin & Hp & Hr)]; [by left|].
        right. exists v'. auto.
      * right. exists v. auto.
    + unfold ret. destruct (IH acc) as [H|(v' & Hin & Hp & Hr)]; [by left|].
      right. exists v'. auto.
Qed.

Lemma logregrank_create_data_options_spec (opts : list (string * string))
    (w : World RngState) :
  exists h, logregrank_create_data_options opts w = (Ret h, w).
Proof.
  unfold logregrank_create_data_options. generalize (@None string) as acc.
  induction opts as [|[o v] opts IH]; intros acc; simpl.
  - by exists acc.
  - unfold bind at 1. destruct (String.eqb o "-h"); unfold ret; apply IH.
Qed.

Lemma percrank_train_options_spec (opts : list (string * string))
    (w : World RngState) :
  exists r, percrank_train_options opts w
    = (Ret r, {| rng := rng w; trace := trace w ++ debug_sinks opts |}).
Proof.
  unfold percrank_train_options. generalize (@None string, @None string) as acc.
  revert w. induction opts as [|[o v] opts IH]; intros w [d c]; simpl.
  - exists (d, c). unfold ret. by rewrite app_nil_r, world_eta.
  - unfold bind at 1.
    destruct (String.eqb o "-d") eqn:Ed.
    + change (bind (emit (FileStreamW v)) (fun _ => ret (Some v, c)) w)
        with (@Ret (option string * option string) (Some v, c),
              {| rng := rng w; trace := trace w ++ [FileStreamW v] |}).
      cbv iota beta.
      destruct (IH {| rng := rng w; trace := trace w ++ [FileStreamW v] |} (Some v, c))
        as [r Hr].
      exists r. rewrite Hr. simpl. by rewrite <- app_assoc.
    + destruct (String.eqb o "-c"); unfold ret; apply IH.
Qed.

Lemma sample_gen_options_spec (opts : list (string * string)) (w : World RngState) :
  (exists r, sample_gen_options opts w = (Ret r, w))
  \/ (exists v, In ("-n", v) opts /\ parse_int v = None
        /\ sample_gen_options opts w = (Raise (int_error v), w)).
Proof.
  unfold sample_gen_options. generalize (1%Z, @None string, @None string, @None string) as acc.
  induction opts as [|[o v] opts IH]; intros [[[n r] oe] wo]; simpl.
  - left. by eexists.
  - unfold bind at 1.
    destruct (String.eqb o "-r"); [unfold ret; destruct (IH (n, Some v, oe, wo))
      as [H|(v' & Hin & Hp & Hr)]; [by left|right; exists v'; auto]|].
    destruct (String.eqb_spec o "-n") as [->|Hne].
    + unfold bind, lift, py_int. destruct (parse_int v) as [k|] eqn:E.
      * unfold ret. destruct (IH (k, r, oe, wo)) as [H|(v' & Hin & Hp & Hr)];
          [by left|right; exists v'; auto].
      * right. exists v. auto.
    + destruct (String.eqb o "-o"); [unfold ret; destruct (IH (n, r, Some v, wo))
        as [H|(v' & Hin & Hp & Hr)]; [by left|right; exists v'; auto]|].
      destruct (String.eqb o "-w"); unfold ret.
      * destruct (IH (n, r, oe, Some v)) as [H|(v' & Hin & Hp & Hr)];
          [by left|right; exists v'; auto].
      * destruct (IH (n, r, oe, wo)) as [H|(v' & Hin & Hp & Hr)];
          [by left|right; exists v'; auto].
Qed.

Lemma asearch_gen_options_spec (opts : list (string * string)) (w : World RngState) :
  Forall (fun oa => oa.1 = "-e" \/ oa.1 = "-d") opts ->
  exists eval_file debug_out,
    asearch_gen_options opts w
    = (Ret (eval_file, debug_out, None, None),
       {| rng := rng w; trace := trace w ++ debug_sinks opts |}).
Proof.
  intros Hall. unfold asearch_gen_options.
  match goal with |- context [for_each opts _ ?b] => set (body := b) end.
  enough (forall w (e0 d0 w0 c0 : option string), exists eval_file debug_out,
    for_each opts (e0, d0, w0, c0) body w
    = (Ret (eval_file, debug_out, w0, c0),
       {| rng := rng w; trace := trace w ++ debug_sinks opts |})) as H by apply H.
  clear w. induction opts as [|[o v] opts IH]; intros w e0 d0 w0 c0; simpl.
  - exists e0, d0. unfold ret. by rewrite app_nil_r, world_eta.
  - apply Forall_cons in Hall as [Ho Hall]. simpl in Ho. unfold bind at 1.
    destruct Ho as [-> | ->]; simpl.
    + unfold ret. apply IH, Hall.
    + change (bind (emit (FileStreamW v)) (fun _ => ret (e0, Some v, w0, c0)) w)
        with (@Ret (option string * option string * option string * option string)
                (e0, Some v, w0, c0),
              {| rng := rng w; trace := trace w ++ [FileStreamW v] |}).
      cbv iota beta.
      destruct (IH Hall {| rng := rng w; trace := trace w ++ [FileStreamW v] |}
                  e0 (Some v) w0 c0) as (e & d & Hr).
      exists e, d. rewrite Hr. simpl. by rewrite <- app_assoc.
Qed.

Lemma asearch_gen_options_accepted (args : list string)
    (opts : list (string * string)) (files : list string) (w : World RngState) :
  getopt args "e:d:" = Ret (opts, files) ->
  exists eval_file debug_out,
    asearch_gen_options opts w
    = (Ret (eval_file, debug_out, None, None),
       {| rng := rng w; trace := trace w ++ debug_sinks opts |}).
Proof.
  intros Hg. apply asearch_gen_options_spec.
  eapply Forall_impl; [eapply getopt_recognized, Hg|].
  intros oa. apply recognized_asearch.
Qed.

(** *** What a computation may leave in the trace *)

Lemma emits_only_lift (P : Event -> Prop) {A : Type} (o : Outcome A) :
  emits_only P (lift (RngState:=RngState) o).
Proof. intros w. exists []. simpl. by rewrite app_nil_r. Qed.

Lemma emits_only_ret (P : Event -> Prop) {A : Type} (a : A) :
  emits_only P (ret (RngState:=RngState) a).
Proof. apply (emits_only_lift P (Ret a)). Qed.

Lemma emits_only_emit (P : Event -> Prop) (e : Event) :
  P e -> emits_only P (emit (RngState:=RngState) e).
Proof. intros He w. exists [e]. simpl. split; [done|]. by constructor. Qed.

Lemma emits_only_bind (P : Event -> Prop) {A B : Type}
    (c : M RngState A) (k : A -> M RngState B) :
  emits_only P c -> (forall a, emits_only P (k a)) -> emits_only P (bind c k).
Proof.
  intros Hc Hk w. unfold bind. destruct (Hc w) as (evs & Ht & Hall).
  destruct (c w) as [[a| |] w']; simpl in *.
  - destruct (Hk a w') as (evs' & Ht' & Hall'). exists (evs ++ evs')%list.
    rewrite Ht', Ht, app_assoc. split; [done|]. by apply Forall_app.
  - by exists evs.
  - by exists evs.
Qed.

Lemma emits_only_for_each (P : Event -> Prop) {A S : Type}
    (l : list A) (body : S -> A -> M RngState S) :
  (forall s x, emits_only P (body s x)) ->
  forall s, emits_only P (for_each l s body).
Proof.
  intros Hb. induction l as [|x l IH]; intros s; simpl.
  - apply emits_only_ret.
  - apply emits_only_bind; [apply Hb | apply IH].
Qed.

Lemma emits_only_ttrees_from_doc (P : Event -> Prop) (doc : option Doc) :
  emits_only P (ttrees_from_doc (RngState:=RngState) ttrees_of_none doc).
Proof. destruct doc; [apply emits_only_ret | apply emits_only_lift]. Qed.

Ltac quiet :=
  repeat first
    [ apply emits_only_ret
    | apply emits_only_lift
    | apply emits_only_ttrees_from_doc
    | apply emits_only_emit; reflexivity
    | apply emits_only_for_each; intros
    | apply emits_only_bind; [|intros]
    | match goal with
      | |- emits_only _ (match ?x with _ => _ end) => destruct x
      | |- emits_only _ (let _ := ?x in _) => destruct x
      end ].

Lemma asearch_gen_body_quiet (files : list string) (eval_file debug_out : option string) :
  emits_only (fun e => config_or_output e = false)
    (asearch_gen_body (RngState:=RngState) read_das read_ttrees ttrees_of_none
       asearch_tree files eval_file debug_out None None).
Proof.
  unfold asearch_gen_body, asearch_gen_evaluate, asearch_gen_just_generate,
    asearch_generate_tree, write_output, log_info, sys_exit, unpack_error.
  quiet.
Qed.

(** C4. The search-based generation action does not accept the planner
    configuration and the output file its usage text lists: [-c] and
    [-w] are rejected by [getopt], whose option string is [e:d:]; on
    every command line that [getopt] accepts both stay unset, and no run
    of the action reads a configuration or writes the generated trees. *)
Theorem asearch_gen_config_and_output_unreachable :
  (forall cfg rest (w : World RngState),
      asearch_gen ("-c" :: cfg :: rest) w
      = (Raise (GetoptError "option -c not recognized"), w))
  /\ (forall out rest (w : World RngState),
      asearch_gen ("-w" :: out :: rest) w
      = (Raise (GetoptError "option -w not recognized"), w))
  /\ (forall args opts files (w : World RngState),
      getopt args "e:d:" = Ret (opts, files) ->
      exists eval_file debug_out,
        asearch_gen_options opts w
        = (Ret (eval_file, debug_out, None, None),
           {| rng := rng w; trace := trace w ++ debug_sinks opts |}))
  /\ (forall args, emits_only (fun e => config_or_output e = false) (asearch_gen args)).
Proof.
  split; [reflexivity|]. split; [reflexivity|].
  split; [exact asearch_gen_options_accepted|].
  intros args w. unfold asearch_gen. unfold bind at 1. unfold lift.
  destruct (getopt args "e:d:") as [[opts files]| |] eqn:Hg;
    [|exists []; simpl; by rewrite app_nil_r ..].
  unfold bind. destruct (asearch_gen_options_accepted args opts files w Hg) as (e & d & ->).
  destruct (asearch_gen_body_quiet files e d
              {| rng := rng w; trace := trace w ++ debug_sinks opts |})
    as (evs & Ht & Hall).
  exists (debug_sinks opts ++ evs)%list. rewrite Ht. simpl. rewrite app_assoc.
  split; [done|]. apply Forall_app. split; [|done].
  clear. induction opts as [|[o v] opts IH]; simpl; [done|].
  destruct (String.eqb o "-d"); [constructor|]; done.
Qed.

Lemma positional_getopt (a : Action) (shortopts : string) (args files : list string) :
  shortopts_of a = Some shortopts ->
  positional a args = Ret files ->
  exists opts, getopt args shortopts = Ret (opts, files) /\ options a args = opts.
Proof.
  unfold positional, options. intros ->.
  destruct (getopt args shortopts) as [[opts fs]| |]; try discriminate.
  intros [= ->]. by exists opts.
Qed.

Lemma wrong_count (files : list string) (n : nat) :
  length files <> n -> negb (length files =? n)%nat = true.
Proof. intros H. apply negb_true_iff, Nat.eqb_neq, H. Qed.

Lemma debug_sinks_quiet (opts : list (string * string)) :
  Forall (fun e => touches_data e = false) (debug_sinks opts).
Proof.
  induction opts as [|[o v] opts IH]; simpl; [done|].
  destruct (String.eqb o "-d"); [constructor|]; done.
Qed.


(** C9, as the code has it.  The action name [sample_gen] that the usage
    text documents is not one the dispatcher knows: followed by at least
    one argument it ends the program with the unknown-action message; with
    no argument after it the program has already exited with the plain
    usage text.  The sampling handler is selected by the name
    [random_gen] and by no other. *)
Theorem sample_gen_is_not_an_action :
  (exists before after, usage = before +:+ "sample_gen -- generate" +:+ after)
  /\ action_of_name "sample_gen" = None
  /\ (forall prog arg1 rest (w : World RngState),
        main (prog :: "sample_gen" :: arg1 :: rest) w
        = (SysExit ("ERROR: Unknown action: sample_gen" +:+ usage),
           {| rng := random_seed 1206; trace := trace w |}))
  /\ (forall prog (w : World RngState),
        main [prog; "sample_gen"] w
        = (SysExit usage, {| rng := random_seed 1206; trace := trace w |}))
  /\ (forall action, action_of_name action = Some ASampleGen <-> action = "random_gen")
  /\ (forall args, run_action ASampleGen args = sample_gen args).
Proof.
  split.
  { exists (String.substring 0 698 usage),
           (String.substring 720 (String.length usage - 720) usage).
    vm_compute. reflexivity. }
  split; [reflexivity|]. split; [reflexivity|]. split; [reflexivity|].
  split; [|reflexivity].
  intros action. split; [|intros ->; reflexivity].
  unfold action_of_name.
  repeat match goal with
         | |- context [String.eqb action ?s] =>
             destruct (String.eqb_spec action s); try discriminate
         end.
  done.
Qed.

(** C8. The program seeds the global generator with 1206 before it
    dispatches: whatever state the generator was in when the program
    started, the run is the run from the seeded state, so two
    invocations with the same arguments over the same files end the same
    way and leave the same trace, the written trees and the reported
    scores included. *)
Theorem main_is_deterministic (argv : list string) (w1 w2 : World RngState) :
  trace w1 = trace w2 ->
  main argv w1 = main argv {| rng := random_seed 1206; trace := trace w1 |}
  /\ main argv w1 = main argv w2.
Proof.
  intros Ht.
  assert (forall w : World RngState,
    main argv w = main argv {| rng := random_seed 1206; trace := trace w |}) as H
    by reflexivity.
  split; [apply H|]. rewrite (H w1), (H w2). by rewrite Ht.
Qed.

End DriverProperties.

Lemma asearch_gen_config_and_output_unreachable_witness :
  exists eval_file debug_out,
    asearch_gen_options [("-e", "gold"); ("-d", "dbg")] (mkWorld 0%Z [])
    = (Ret (eval_file, debug_out, None, None),
       {| rng := 0%Z; trace := [FileStreamW "dbg"] |}).
Proof.
  destruct (asearch_gen_config_and_output_unreachable (RngState:=Z) demo_read_das
              demo_read_ttrees demo_ttrees_of_none demo_asearch_tree)
    as (_ & _ & H & _).
  apply (H ["-e"; "gold"; "-d"; "dbg"; "candgen"; "ranker"; "das"]
           [("-e", "gold"); ("-d", "dbg")] ["candgen"; "ranker"; "das"]).
  reflexivity.
Defined.

Lemma asearch_gen_rejects_documented_config :
  demo_run_action AASearchGen ["-c"; "config"; "candgen"; "percrank"; "das"]
    (mkWorld 0%Z [])
  = (Raise (GetoptError "option -c not recognized"), mkWorld 0%Z []).
Proof. reflexivity. Qed.



(** C9 as stated fails: with nothing after the action name the program
    exits with the plain usage text, not with the unknown-action message. *)
Lemma sample_gen_without_arguments :
  (demo_main ["./tgen.py"; "sample_gen"] (mkWorld 0%Z [])).1 = SysExit usage
  /\ (demo_main ["./tgen.py"; "sample_gen"] (mkWorld 0%Z [])).1
     <> SysExit ("ERROR: Unknown action: sample_gen" +:+ usage).
Proof.
  split; [reflexivity|]. intros H. vm_compute in H. discriminate H.
Qed.

Lemma sample_gen_is_not_an_action_witness :
  (demo_main ["./tgen.py"; "sample_gen"; "candgen"; "das"] (mkWorld 0%Z [])).1
  = SysExit ("ERROR: Unknown action: sample_gen" +:+ usage).
Proof.
  destruct (sample_gen_is_not_an_action demo_seed demo_read_das demo_read_ttrees
              demo_ttrees_of_none demo_sampling_tree demo_asearch_tree)
    as (_ & _ & H & _).
  unfold demo_main. rewrite H. reflexivity.
Defined.

Lemma main_is_deterministic_witness :
  demo_main ["./tgen.py"; "random_gen"; "-n"; "2"; "-w"; "out"; "candgen"; "das"]
    (mkWorld 0%Z [])
  = demo_main ["./tgen.py"; "random_gen"; "-n"; "2"; "-w"; "out"; "candgen"; "das"]
      (mkWorld 7%Z []).
Proof.
  apply (main_is_deterministic demo_seed demo_read_das demo_read_ttrees
           demo_ttrees_of_none demo_sampling_tree demo_asearch_tree).
  reflexivity.
Defined.

(** Without the seeding the generated trees do depend on the state the
    generator starts in. *)
Lemma unseeded_runs_differ :
  demo_run_action ASampleGen ["-w"; "out"; "candgen"; "das"] (mkWorld 0%Z [])
  <> demo_run_action ASampleGen ["-w"; "out"; "candgen"; "das"] (mkWorld 1%Z []).
Proof. intros H. vm_compute in H. discriminate H. Qed.

(** ** Generation and evaluation *)

Lemma as_doc_snoc (acc : list SyntaxTree) (t : SyntaxTree) :
  Some (doc_trees (as_doc acc) ++ [t]) = as_doc (acc ++ [t]).
Proof. destruct acc; simpl; done. Qed.

Section Generation.

Context {RngState : Type}.
Variable read_ttrees : string -> Doc.
Variable ttrees_of_none : Outcome (list SyntaxTree).
Variable sampling_tree : SamplingPlanner -> DA -> RngState -> SyntaxTree * RngState.
Variable asearch_tree : ASearchPlanner -> DA -> option SyntaxTree -> SyntaxTree.

Local Abbreviation draws := (draws sampling_tree).
Local Abbreviation draws_all := (draws_all sampling_tree).
Local Abbreviation sample_gen_generate := (sample_gen_generate sampling_tree).
Local Abbreviation sample_gen_evaluate :=
  (sample_gen_evaluate (RngState:=RngState) read_ttrees ttrees_of_none).
Local Abbreviation asearch_gen_evaluate :=
  (asearch_gen_evaluate (RngState:=RngState) read_ttrees ttrees_of_none asearch_tree).

Lemma draws_length (tgen : SamplingPlanner) (da : DA) (k : nat) :
  forall r, length (draws tgen da k r).1 = k.
Proof.
  induction k as [|k IH]; intros r; simpl; [done|].
  destruct (sampling_tree tgen da r) as [t r1].
  specialize (IH r1). destruct (draws tgen da k r1) as [ts r2]. simpl in *. lia.
Qed.

Lemma draws_all_lengths (tgen : SamplingPlanner) (k : nat) (das : list DA) :
  forall r,
    length (draws_all tgen das k r).1 = length das
    /\ Forall (fun ts => length ts = k) (draws_all tgen das k r).1.
Proof.
  induction das as [|da das IH]; intros r; simpl; [done|].
  pose proof (draws_length tgen da k r) as Hd.
  destruct (draws tgen da k r) as [ts r1].
  destruct (IH r1) as [Hl Hall]. destruct (draws_all tgen das k r1) as [tss r2].
  simpl in *. split; [lia|]. by constructor.
Qed.

Lemma concat_length_uniform {A : Type} (k : nat) (tss : list (list A)) :
  Forall (fun ts => length ts = k) tss ->
  length (concat tss) = (length tss * k)%nat.
Proof.
  induction 1 as [|ts tss Hts _ IH]; simpl; [done|]. rewrite length_app. lia.
Qed.

Lemma generate_for_one (tgen : SamplingPlanner) (da : DA) (k : nat) :
  forall (s : nat) (acc : list SyntaxTree) (w : World RngState),
    for_each (seq s k) (as_doc acc)
      (fun gen_doc _ => sampling_generate_tree sampling_tree tgen da gen_doc) w
    = (Ret (as_doc (acc ++ (draws tgen da k (rng w)).1)),
       {| rng := (draws tgen da k (rng w)).2; trace := trace w |}).
Proof.
  induction k as [|k IH]; intros s acc w; simpl.
  - unfold ret. by rewrite app_nil_r, world_eta.
  - unfold bind, sampling_generate_tree.
    destruct (sampling_tree tgen da (rng w)) as [t r1].
    rewrite as_doc_snoc, IH. simpl.
    destruct (draws tgen da k r1) as [ts r2]. simpl. by rewrite <- app_assoc.
Qed.

Lemma generate_for_all (tgen : SamplingPlanner) (k : nat) (das : list DA) :
  forall (acc : list SyntaxTree) (w : World RngState),
    for_each das (as_doc acc)
      (fun gen_doc da =>
         for_each (seq 0 k) gen_doc
           (fun gen_doc _ => sampling_generate_tree sampling_tree tgen da gen_doc)) w
    = (Ret (as_doc (acc ++ concat (draws_all tgen das k (rng w)).1)),
       {| rng := (draws_all tgen das k (rng w)).2; trace := trace w |}).
Proof.
  induction das as [|da das IH]; intros acc w; simpl.
  - unfold ret. by rewrite app_nil_r, world_eta.
  - unfold bind. rewrite generate_for_one.
    destruct (draws tgen da k (rng w)) as [ts r1]. simpl. rewrite IH. simpl.
    destruct (draws_all tgen das k r1) as [tss r2]. simpl. by rewrite <- app_assoc.
Qed.

Lemma sample_gen_generate_spec (tgen : SamplingPlanner) (das : list DA) (n : Z)
    (w : World RngState) :
  sample_gen_generate tgen das n w
  = (Ret (as_doc (concat (draws_all tgen das (Z.to_nat n) (rng w)).1)),
     {| rng := (draws_all tgen das (Z.to_nat n) (rng w)).2; trace := trace w |}).
Proof. apply (generate_for_all tgen (Z.to_nat n) das []). Qed.


Lemma sample_gen_evaluate_spec (f : string) (trees : list SyntaxTree) (n : Z)
    (w : World RngState) :
  Forall (fun gc => gc.2 <> [])
    (py_zip (read_ttrees f) (chunk_list trees (Z.to_nat n))) ->
  let counts := sum_counts (map (fun gc => tp_fp_fn gc.1 (best_tree gc.1 gc.2))
                  (py_zip (read_ttrees f) (chunk_list trees (Z.to_nat n)))) in
  sample_gen_evaluate f (Some trees) n w
  = (Ret tt,
     {| rng := rng w;
        trace := trace w ++
          [LogInfo "Evaluating oracle F1...";
           LogInfo ("Loading gold data from " +:+ f);
           ReadTtrees f;
           LogInfo "Gold data loaded.";
           LogScores "Oracle" (p_r_f1_from_counts counts.1.1 counts.2 counts.1.2)] |}).
Proof.
  intros Hne counts. unfold sample_gen_evaluate, bind, log_info, emit,
    ttrees_from_doc, ret, lift. simpl.
  rewrite (oracle_counts_spec _ Hne). fold counts.
  destruct counts as [[c p] g]. simpl. rewrite <- !app_assoc. reflexivity.
Qed.

Lemma chunks_of_generated (tgen : SamplingPlanner) (das : list DA) (n : Z)
    (r : RngState) :
  (0 < n)%Z ->
  chunk_list (concat (draws_all tgen das (Z.to_nat n) r).1) (Z.to_nat n)
  = (draws_all tgen das (Z.to_nat n) r).1.
Proof.
  intros Hn. apply chunk_list_concat; [lia|]. apply draws_all_lengths.
Qed.

Lemma zip_chunks_nonempty (k : nat) (golds : list SyntaxTree)
    (tss : list (list SyntaxTree)) :
  (0 < k)%nat ->
  Forall (fun ts => length ts = k) tss ->
  Forall (fun gc : SyntaxTree * list SyntaxTree => gc.2 <> []) (py_zip golds tss).
Proof.
  intros Hk Hall. apply Forall_forall. intros [g ts] Hin. simpl.
  apply list_elem_of_In, in_combine_r, list_elem_of_In in Hin.
  rewrite Forall_forall in Hall. specialize (Hall ts Hin).
  intros ->. simpl in Hall. lia.
Qed.


Lemma asearch_generate_zip (p : ASearchPlanner) (pairs : list (DA * SyntaxTree)) :
  forall (acc : list SyntaxTree) (w : World RngState),
    for_each pairs (as_doc acc)
      (fun gen_doc '(da, eval_ttree) =>
         asearch_generate_tree asearch_tree p da gen_doc (Some eval_ttree)) w
    = (Ret (as_doc (acc ++ map (fun dg => asearch_tree p dg.1 (Some dg.2)) pairs)), w).
Proof.
  induction pairs as [|[da g] pairs IH]; intros acc w; simpl.
  - unfold ret. by rewrite app_nil_r.
  - unfold bind, asearch_generate_tree, ret. rewrite as_doc_snoc, IH. simpl.
    by rewrite <- app_assoc.
Qed.

Lemma py_zip_take_r {A B : Type} (xs : list A) (ys : list B) :
  py_zip xs ys = py_zip (take (length ys) xs) ys.
Proof.
  unfold py_zip. revert ys. induction xs as [|x xs IH]; intros [|y ys]; simpl; try done.
  by rewrite <- IH.
Qed.


End Generation.

(** ** The A* planner *)

Section ASearchProperties.

Variable m : PlannerModel.
Variable da : DA.

Local Abbreviation expand := (expand m da).
Local Abbreviation weight n := (weight m n da).
Local Abbreviation search_step := (search_step m da).
Local Abbreviation search_run fuel := (search_run m fuel da).
Local Abbreviation potential := (potential m da).
Local Abbreviation rooted := (rooted m).
Local Abbreviation search_inv := (search_inv m).

(** *** Every expansion shrinks the residual *)

Lemma reduce_shrinks (residual : DA) (c : Candidate) :
  compatible m residual c = true ->
  (length (reduce m residual c) < length residual)%nat.
Proof.
  unfold compatible, reduce. intros H. apply andb_true_iff in H as [_ H].
  apply existsb_exists in H as (x & Hin & Hx).
  apply (length_filter_lt _ _ x); [by apply list_elem_of_In|].
  rewrite Hx. discriminate.
Qed.

Lemma expand_elem (s s' : SearchState) :
  In s' (expand s) ->
  exists p c, compatible m (st_residual s) c = true
              /\ s' = apply_candidate m da s p c.
Proof.
  unfold expand. intros H. apply in_flat_map in H as (p & _ & H).
  destruct (st_tree s !! p) as [n|]; [|done].
  destruct (is_open m (st_tree s) p); [|done].
  apply in_map_iff in H as (c & <- & Hc).
  apply list_elem_of_In, list_elem_of_filter in Hc as [Hc _]. by exists p, c.
Qed.

Lemma expand_shrinks (s s' : SearchState) :
  In s' (expand s) -> (length (st_residual s') < length (st_residual s))%nat.
Proof.
  intros H. apply expand_elem in H as (p & c & Hc & ->). simpl.
  by apply reduce_shrinks.
Qed.

(** *** The measure *)

Lemma weight_pos (n : nat) (s : SearchState) : (1 <= weight n s)%nat.
Proof. destruct n; simpl; lia. Qed.

Lemma list_sum_map_le {A : Type} (f g : A -> nat) (l : list A) :
  (forall x, In x l -> (f x <= g x)%nat) ->
  (list_sum (map f l) <= list_sum (map g l))%nat.
Proof.
  induction l as [|x l IH]; intros H; simpl; [lia|].
  assert (f x <= g x)%nat by (apply H; by left).
  assert (list_sum (map f l) <= list_sum (map g l))%nat
    by (apply IH; intros y Hy; apply H; by right).
  lia.
Qed.

Lemma weight_mono (n n' : nat) :
  (n <= n')%nat -> forall s, (weight n s <= weight n' s)%nat.
Proof.
  revert n'. induction n as [|n IH]; intros n' Hle s.
  - apply weight_pos.
  - destruct n' as [|n']; [lia|]. simpl.
    apply le_n_S, list_sum_map_le. intros x _. apply IH. lia.
Qed.

Lemma weight_unfold (s : SearchState) :
  (S (potential (expand s)) <= weight (length (st_residual s)) s)%nat.
Proof.
  unfold potential. destruct (length (st_residual s)) as [|n] eqn:E.
  - destruct (expand s) as [|s' l] eqn:Ex; [simpl; lia|].
    assert (In s' (expand s)) as H by (rewrite Ex; by left).
    apply expand_shrinks in H. lia.
  - simpl. apply le_n_S, list_sum_map_le. intros s' Hs'.
    apply expand_shrinks in Hs'. apply weight_mono. lia.
Qed.

Lemma potential_app (l1 l2 : list SearchState) :
  potential (l1 ++ l2) = (potential l1 + potential l2)%nat.
Proof. unfold potential. by rewrite map_app, list_sum_app. Qed.

Lemma pop_min_aux_perm (l : list SearchState) :
  forall s lo rest, pop_min_aux s l = (lo, rest) -> s :: l ≡ₚ lo :: rest.
Proof.
  induction l as [|x l IH]; intros s lo rest; simpl.
  - by intros [= <- <-].
  - destruct (pop_min_aux x l) as [lo' rest'] eqn:E.
    specialize (IH x lo' rest' E).
    destruct (Qlt_bool (cost lo') (cost s)); intros [= <- <-].
    + rewrite IH. apply perm_swap.
    + done.
Qed.

Lemma pop_min_potential (l rest : list SearchState) (s : SearchState) :
  pop_min l = Some (s, rest) ->
  potential l = (weight (length (st_residual s)) s + potential rest)%nat
  /\ (forall x, x ∈ l <-> x = s \/ x ∈ rest).
Proof.
  destruct l as [|s0 l]; [done|]. simpl. intros [= H].
  apply pop_min_aux_perm in H. split.
  - unfold potential. by rewrite H.
  - intros x. rewrite H. apply elem_of_cons.
Qed.

Lemma step_decreases (st st' : Search) :
  search_step st = Running st' ->
  (potential (frontier st') < potential (frontier st))%nat.
Proof.
  unfold search_step.
  destruct (pop_min (frontier st)) as [[s rest]|] eqn:E; [|done].
  destruct (pop_min_potential _ _ _ E) as [Hp _]. rewrite Hp.
  destruct (is_goal m s); [done|].
  destruct (in_closed (signature s) (closed st)); intros [= <-]; simpl.
  - pose proof (weight_pos (length (st_residual s)) s). lia.
  - rewrite potential_app. pose proof (weight_unfold s). lia.
Qed.

Lemma search_run_ends (fuel : nat) :
  forall st, (potential (frontier st) < fuel)%nat ->
  forall st', search_run fuel st <> Running st'.
Proof.
  induction fuel as [|fuel IH]; intros st Hlt st'; [lia|]. simpl.
  destruct (search_step st) as [st1| |] eqn:E; try discriminate.
  apply IH. apply step_decreases in E. lia.
Qed.

Lemma initial_potential :
  (potential (frontier (initial_search m da)) < search_fuel m da)%nat.
Proof. unfold potential, search_fuel. simpl. lia. Qed.

(** *** What the search has seen *)

Lemma fold_better (succ : list SearchState) :
  forall b,
    fold_left better succ b ∈ b :: succ
    /\ (forall s, s ∈ b :: succ -> (cost (fold_left better succ b) <= cost s)%Q).
Proof.
  induction succ as [|x succ IH]; intros b; simpl.
  - split; [by left|]. intros s Hs. apply list_elem_of_singleton in Hs as ->.
    apply Qle_refl.
  - destruct (IH (better b x)) as [Hin Hle]. split.
    + apply elem_of_cons in Hin as [Hin|Hin]; [|by do 2 right].
      rewrite Hin. unfold better. destruct (Qlt_bool (cost x) (cost b));
        [right|]; by left.
    + intros s Hs. assert (cost (better b x) <= cost b
                           /\ cost (better b x) <= cost x)%Q as [Hb Hx].
      { unfold better. destruct (Qlt_bool (cost x) (cost b)) eqn:E.
        - apply Qlt_bool_iff in E. split; [by apply Qlt_le_weak | apply Qle_refl].
        - apply Qlt_bool_false in E. split; [apply Qle_refl | done]. }
      pose proof (Hle (better b x) ltac:(by left)) as H0.
      apply elem_of_cons in Hs as [->|Hs]; [by eapply Qle_trans|].
      apply elem_of_cons in Hs as [->|Hs]; [by eapply Qle_trans|].
      apply Hle. by right.
Qed.

Lemma add_child_rooted (t : SyntaxTree) (p : nat) (c : Candidate) :
  rooted t -> rooted (add_child t p c).
Proof.
  intros (root & rest & -> & Hp & Hl). unfold add_child.
  destruct p as [|p]; simpl; eexists _, _; (split; [reflexivity|]); done.
Qed.

Lemma expand_rooted (s s' : SearchState) :
  rooted (st_tree s) -> In s' (expand s) -> rooted (st_tree s').
Proof.
  intros Hr H. apply expand_elem in H as (p & c & _ & ->). simpl.
  by apply add_child_rooted.
Qed.

Lemma initial_inv : search_inv (initial_search m da).
Proof.
  unfold search_inv. simpl. split; [by left|]. split; [|split].
  - intros s Hs. apply list_elem_of_singleton in Hs as ->. apply Qle_refl.
  - done.
  - intros s Hs. apply list_elem_of_singleton in Hs as ->. simpl.
    by eexists _, _.
Qed.

Lemma step_inv (st : Search) :
  search_inv st ->
  match search_step st with
  | Running st' => search_inv st'
  | Goal s => is_goal m s = true /\ s ∈ seen st
  | Exhausted st' => st' = st /\ frontier st = []
  end.
Proof.
  intros (Hbest & Hmin & Hfr & Hroot). unfold search_step.
  destruct (pop_min (frontier st)) as [[s rest]|] eqn:E.
  - destruct (pop_min_potential _ _ _ E) as [_ Hmem].
    destruct (is_goal m s) eqn:Eg.
    { split; [done|]. apply Hfr, Hmem. by left. }
    destruct (in_closed (signature s) (closed st)).
    + unfold search_inv. simpl. split; [done|]. split; [done|]. split; [|done].
      intros x Hx. apply Hfr, Hmem. by right.
    + unfold search_inv. simpl.
      destruct (fold_better (expand s) (best st)) as [Hin Hle].
      split; [|split; [|split]].
      * apply elem_of_app. apply elem_of_cons in Hin as [->|Hin]; [by left|by right].
      * intros x Hx. apply elem_of_app in Hx as [Hx|Hx].
        -- eapply Qle_trans; [apply Hle; by left | by apply Hmin].
        -- apply Hle. by right.
      * intros x Hx. apply elem_of_app. apply elem_of_app in Hx as [Hx|Hx]; [|by right].
        left. apply Hfr, Hmem. by right.
      * intros x Hx. apply elem_of_app in Hx as [Hx|Hx]; [by apply Hroot|].
        apply (expand_rooted s); [|by apply list_elem_of_In].
        apply Hroot, Hfr, Hmem. by left.
  - split; [done|]. by destruct (frontier st).
Qed.

Lemma run_inv (fuel : nat) :
  forall st, search_inv st ->
  match search_run fuel st with
  | Running st' => search_inv st'
  | Goal s => is_goal m s = true /\ rooted (st_tree s)
  | Exhausted st' => search_inv st' /\ frontier st' = []
  end.
Proof.
  induction fuel as [|fuel IH]; intros st Hinv; simpl; [done|].
  pose proof (step_inv st Hinv) as Hstep.
  destruct (search_step st) as [st1|s|st1].
  - by apply IH.
  - destruct Hstep as [Hg Hs]. split; [done|]. by apply Hinv.
  - destruct Hstep as [-> Hf]. done.
Qed.

(** *** A generator with nothing to offer *)

Lemma starved_expand (s : SearchState) :
  (forall l d, get_candidates m l d = []) -> expand s = [].
Proof.
  intros Hnone. unfold expand.
  induction (seq 0 (length (st_tree s))) as [|p ps IH]; simpl; [done|].
  rewrite IH, app_nil_r. destruct (st_tree s !! p); [|done].
  rewrite Hnone. simpl. by destruct (is_open m (st_tree s) p).
Qed.

Lemma starved_tree :
  (forall l d, get_candidates m l d = []) -> astar_tree m da = single_node_tree m.
Proof.
  intros Hnone. unfold astar_tree, search_fuel.
  assert (weight (length da) (initial_state m da) = 1%nat) as ->.
  { destruct (length da); simpl; [done|]. by rewrite starved_expand. }
  cbn [search_run]. unfold search_step at 1.
  cbn [initial_search frontier pop_min pop_min_aux closed in_closed existsb best seen].
  destruct (is_goal m (initial_state m da)); [reflexivity|].
  rewrite starved_expand by done.
  unfold search_step. cbn. reflexivity.
Qed.

End ASearchProperties.

Lemma just_generate_spec {RngState : Type}
    (asearch_tree : ASearchPlanner -> DA -> option SyntaxTree -> SyntaxTree)
    (tgen : ASearchPlanner) (das : list DA) :
  forall (acc : list SyntaxTree) (w : World RngState),
    for_each das (as_doc acc)
      (fun gen_doc da => asearch_generate_tree asearch_tree tgen da gen_doc None) w
    = (Ret (as_doc (acc ++ map (fun da => asearch_tree tgen da None) das)), w).
Proof.
  induction das as [|da das IH]; intros acc w; simpl.
  - unfold ret. by rewrite app_nil_r.
  - unfold bind, asearch_generate_tree, ret. rewrite as_doc_snoc, IH.
    by rewrite <- app_assoc.
Qed.



(** The search on a dialogue act the generator can cover: a goal. *)
Example astar_finds_goal :
  astar_tree demo_planner [inform "food" "thai"; inform "area" "north"]
  = [{| parent := None; children := [1%nat]; label := "" |};
     {| parent := Some 0%nat; children := [2%nat]; label := "thai" |};
     {| parent := Some 1%nat; children := []; label := "north" |}].
Proof. vm_compute. reflexivity. Qed.

(** The search on a dialogue act the generator cannot cover: the frontier
    empties and the cheapest state seen is returned. *)
Example astar_falls_back :
  exists st,
    search_run demo_planner 4 [inform "food" "thai"; inform "price" "dear"]
      (initial_search demo_planner [inform "food" "thai"; inform "price" "dear"])
    = Exhausted st
    /\ st_tree (best st)
       = [{| parent := None; children := [1%nat]; label := "" |};
          {| parent := Some 0%nat; children := []; label := "thai" |}].
Proof. eexists. split; vm_compute; reflexivity. Qed.



(** The oracle picks, for each gold tree, the sampled tree that matches
    it, and reports the scores of the totals. *)
Example oracle_evaluation_run :
  demo_run_action ASampleGen ["-n"; "2"; "-o"; "gold3"; "candgen"; "das2"]
    (mkWorld 0%Z [])
  = (Ret tt,
     {| rng := 4%Z;
        trace := [LogInfo "Initializing..."; CandgenLoad "candgen";
                  LogInfo "Generating..."; ReadDas "das2";
                  LogInfo "Evaluating oracle F1...";
                  LogInfo "Loading gold data from gold3"; ReadTtrees "gold3";
                  LogInfo "Gold data loaded.";
                  LogScores "Oracle" (1%Q, 1%Q, 1%Q)] |}).
Proof. vm_compute. reflexivity. Qed.


(** Three gold trees against two dialogue acts: two trees are generated
    and two pairs are scored. *)
Example asearch_evaluation_run :
  demo_run_action AASearchGen ["-e"; "gold3"; "candgen"; "percrank"; "das2"]
    (mkWorld 0%Z [])
  = (Ret tt,
     {| rng := 0%Z;
        trace := [LogInfo "Initializing..."; CandgenLoad "candgen";
                  RankerLoad "percrank"; LogInfo "Generating..."; ReadDas "das2";
                  ReadTtrees "gold3"; LogInfo "Evaluating...";
                  LogScores "Node" (1 # 2, 1 # 2, 1 # 2)] |}).
Proof. vm_compute. reflexivity. Qed.

(** ** More of the command surface *)

Lemma last_option_cons_other (key opt arg : string) (rest : list (string * string)) :
  String.eqb opt key = false ->
  last_option key ((opt, arg) :: rest) = last_option key rest.
Proof. intros H. simpl. rewrite H. by destruct (last_option key rest). Qed.

Lemma last_option_cons_same (key arg : string) (rest : list (string * string)) :
  last_option key ((key, arg) :: rest)
  = match last_option key rest with Some v => Some v | None => Some arg end.
Proof. simpl. by rewrite String.eqb_refl. Qed.

Lemma first_bad_int_last (key : string) (opts : list (string * string)) (v : string) :
  first_bad_int key opts = None ->
  last_option key opts = Some v ->
  exists n, parse_int v = Some n.
Proof.
  induction opts as [|[o a] opts IH]; simpl; [done|].
  destruct (String.eqb o key) eqn:E.
  - destruct (parse_int a) as [n|] eqn:Ea; [|done]. intros Hb.
    destruct (last_option key opts) as [x|]; [by apply IH|].
    intros [= <-]. by exists n.
  - intros Hb. destruct (last_option key opts) as [x|]; [by apply IH|done].
Qed.

Lemma last_int_cons_other (key opt arg : string) (d : Z) (rest : list (string * string)) :
  String.eqb opt key = false ->
  last_int key d ((opt, arg) :: rest) = last_int key d rest.
Proof. intros H. unfold last_int. by rewrite last_option_cons_other. Qed.

Lemma last_int_cons_same (key arg : string) (d n : Z) (rest : list (string * string)) :
  parse_int arg = Some n ->
  first_bad_int key rest = None ->
  last_int key d ((key, arg) :: rest) = last_int key n rest.
Proof.
  intros Ha Hb. unfold last_int. rewrite last_option_cons_same.
  destruct (last_option key rest) as [x|] eqn:E; [|by rewrite Ha].
  destruct (first_bad_int_last key rest x Hb E) as [k ->]. done.
Qed.

Section OptionLoops.

Context {RngState : Type}.

Lemma candgen_train_options_value (opts : list (string * string))
    (w : World RngState) :
  candgen_train_options opts w
  = match first_bad_int "-p" opts with
    | Some v => (Raise (int_error v), w)
    | None => (Ret (last_int "-p" 1 opts), w)
    end.
Proof.
  unfold candgen_train_options. generalize 1%Z as acc. revert w.
  induction opts as [|[o v] opts IH]; intros w acc; [reflexivity|].
  cbn [for_each first_bad_int]. unfold bind at 1.
  destruct (String.eqb_spec o "-p") as [->|Hne].
  - unfold lift, py_int. destruct (parse_int v) as [n|] eqn:E; [|reflexivity].
    rewrite IH. destruct (first_bad_int "-p" opts) eqn:Eb; [reflexivity|].
    by rewrite (last_int_cons_same "-p" v acc n opts E Eb).
  - unfold ret. rewrite IH.
    rewrite (last_int_cons_other "-p" o v acc opts) by by apply String.eqb_neq.
    reflexivity.
Qed.


Lemma sample_gen_options_value (opts : list (string * string))
    (w : World RngState) :
  sample_gen_options opts w
  = match first_bad_int "-n" opts with
    | Some v => (Raise (int_error v), w)
    | None => (Ret (last_int "-n" 1 opts, last_option "-r" opts,
                    last_option "-o" opts, last_option "-w" opts), w)
    end.
Proof.
  unfold sample_gen_options.
  enough (forall (n0 : Z) (r0 o0 w0 : option string) (w : World RngState),
    for_each opts (n0, r0, o0, w0)
      (fun '(num_to_generate, ranker_model, oracle_eval_file, fname_ttrees_out)
           '(opt, arg) =>
         if String.eqb opt "-r" then
           ret (num_to_generate, Some arg, oracle_eval_file, fname_ttrees_out)
         else if String.eqb opt "-n" then
           bind (lift (py_int arg))
             (fun n => ret (n, ranker_model, oracle_eval_file, fname_ttrees_out))
         else if String.eqb opt "-o" then
           ret (num_to_generate, ranker_model, Some arg, fname_ttrees_out)
         else if String.eqb opt "-w" then
           ret (num_to_generate, ranker_model, oracle_eval_file, Some arg)
         else ret (num_to_generate, ranker_model, oracle_eval_file, fname_ttrees_out)) w
    = match first_bad_int "-n" opts with
      | Some v => (Raise (int_error v), w)
      | None =>
          (Ret (last_int "-n" n0 opts,
                match last_option "-r" opts with Some v => Some v | None => r0 end,
                match last_option "-o" opts with Some v => Some v | None => o0 end,
                match last_option "-w" opts with Some v => Some v | None => w0 end), w)
      end) as H.
  { rewrite H. destruct (first_bad_int "-n" opts); [reflexivity|].
    by destruct (last_option "-r" opts), (last_option "-o" opts),
      (last_option "-w" opts). }
  clear w. induction opts as [|[o v] opts IH]; intros n0 r0 o0 w0 w; [reflexivity|].
  cbn [for_each first_bad_int]. unfold bind at 1.
  destruct (String.eqb_spec o "-r") as [->|Hr].
  { unfold ret. rewrite IH. cbn [String.eqb Ascii.eqb Bool.eqb].
    destruct (first_bad_int "-n" opts); [reflexivity|].
    rewrite last_option_cons_same, (last_int_cons_other "-n" "-r"),
      (last_option_cons_other "-o" "-r"), (last_option_cons_other "-w" "-r")
      by reflexivity.
    by destruct (last_option "-r" opts). }
  rewrite (last_option_cons_other "-r" o) by by apply String.eqb_neq.
  destruct (String.eqb_spec o "-n") as [->|Hn].
  { unfold bind, lift, py_int. destruct (parse_int v) as [n|] eqn:E; [|reflexivity].
    unfold ret. rewrite IH. destruct (first_bad_int "-n" opts) eqn:Eb; [reflexivity|].
    rewrite (last_int_cons_same "-n" v n0 n opts E Eb),
      (last_option_cons_other "-o" "-n"), (last_option_cons_other "-w" "-n")
      by reflexivity.
    reflexivity. }
  rewrite (last_int_cons_other "-n" o) by by apply String.eqb_neq.
  destruct (String.eqb_spec o "-o") as [->|Ho].
  { unfold ret. rewrite IH. destruct (first_bad_int "-n" opts); [reflexivity|].
    rewrite last_option_cons_same, (last_option_cons_other "-w" "-o") by reflexivity.
    by destruct (last_option "-o" opts). }
  rewrite (last_option_cons_other "-o" o) by by apply String.eqb_neq.
  destruct (String.eqb_spec o "-w") as [->|Hw]; unfold ret; rewrite IH;
    destruct (first_bad_int "-n" opts); try reflexivity.
  - rewrite last_option_cons_same. by destruct (last_option "-w" opts).
  - by rewrite (last_option_cons_other "-w" o) by by apply String.eqb_neq.
Qed.

Lemma logregrank_create_data_options_value (opts : list (string * string))
    (w : World RngState) :
  logregrank_create_data_options opts w = (Ret (last_option "-h" opts), w).
Proof.
  unfold logregrank_create_data_options.
  enough (forall (h0 : option string),
    for_each opts h0
      (fun header_file '(opt, arg) =>
         if String.eqb opt "-h" then ret (Some arg) else ret header_file) w
    = (Ret (match last_option "-h" opts with Some v => Some v | None => h0 end), w))
    as H.
  { rewrite H. by destruct (last_option "-h" opts). }
  induction opts as [|[o v] opts IH]; intros h0; [reflexivity|].
  cbn [for_each]. unfold bind at 1.
  destruct (String.eqb_spec o "-h") as [->|Hh]; unfold ret; rewrite IH.
  - rewrite last_option_cons_same. by destruct (last_option "-h" opts).
  - by rewrite (last_option_cons_other "-h" o) by by apply String.eqb_neq.
Qed.

Lemma asearch_gen_options_value (opts : list (string * string)) (w : World RngState) :
  asearch_gen_options opts w
  = (Ret (last_option "-e" opts, last_option "-d" opts,
          last_option "-w" opts, last_option "-c" opts),
     {| rng := rng w; trace := trace w ++ debug_sinks opts |}).
Proof.
  unfold asearch_gen_options.
  enough (forall (e0 d0 w0 c0 : option string) (w : World RngState),
    for_each opts (e0, d0, w0, c0)
      (fun '(eval_file, debug_out, fname_ttrees_out, cfg_file) '(opt, arg) =>
         if String.eqb opt "-e" then
           ret (Some arg, debug_out, fname_ttrees_out, cfg_file)
         else if String.eqb opt "-d" then
           bind (emit (FileStreamW arg))
             (fun _ => ret (eval_file, Some arg, fname_ttrees_out, cfg_file))
         else if String.eqb opt "-w" then
           ret (eval_file, debug_out, Some arg, cfg_file)
         else if String.eqb opt "-c" then
           ret (eval_file, debug_out, fname_ttrees_out, Some arg)
         else ret (eval_file, debug_out, fname_ttrees_out, cfg_file)) w
    = (Ret (match last_option "-e" opts with Some v => Some v | None => e0 end,
            match last_option "-d" opts with Some v => Some v | None => d0 end,
            match last_option "-w" opts with Some v => Some v | None => w0 end,
            match last_option "-c" opts with Some v => Some v | None => c0 end),
       {| rng := rng w; trace := trace w ++ debug_sinks opts |})) as H.
  { rewrite H. by destruct (last_option "-e" opts), (last_option "-d" opts),
      (last_option "-w" opts), (last_option "-c" opts). }
  clear w. induction opts as [|[o v] opts IH]; intros e0 d0 w0 c0 w.
  { simpl. unfold ret. by rewrite app_nil_r, world_eta. }
  cbn [for_each debug_sinks]. unfold bind at 1.
  destruct (String.eqb_spec o "-e") as [->|He].
  { unfold ret. rewrite IH. cbn [String.eqb Ascii.eqb Bool.eqb].
    rewrite last_option_cons_same, (last_option_cons_other "-d" "-e"),
      (last_option_cons_other "-w" "-e"), (last_option_cons_other "-c" "-e")
      by reflexivity.
    by destruct (last_option "-e" opts). }
  rewrite (last_option_cons_other "-e" o) by by apply String.eqb_neq.
  destruct (String.eqb_spec o "-d") as [->|Hd].
  { change (bind (emit (FileStreamW v)) (fun _ => ret (e0, Some v, w0, c0)) w)
      with (@Ret (option string * option string * option string * option string)
              (e0, Some v, w0, c0),
            {| rng := rng w; trace := trace w ++ [FileStreamW v] |}).
    cbv iota beta. rewrite IH. cbn [rng trace].
    rewrite last_option_cons_same, (last_option_cons_other "-w" "-d"),
      (last_option_cons_other "-c" "-d") by reflexivity.
    rewrite <- app_assoc. by destruct (last_option "-d" opts). }
  rewrite (last_option_cons_other "-d" o) by by apply String.eqb_neq.
  destruct (String.eqb_spec o "-w") as [->|Hw].
  { unfold ret. rewrite IH.
    rewrite last_option_cons_same, (last_option_cons_other "-c" "-w") by reflexivity.
    by destruct (last_option "-w" opts). }
  rewrite (last_option_cons_other "-w" o) by by apply String.eqb_neq.
  destruct (String.eqb_spec o "-c") as [->|Hc]; unfold ret; rewrite IH.
  - rewrite last_option_cons_same. by destruct (last_option "-c" opts).
  - by rewrite (last_option_cons_other "-c" o) by by apply String.eqb_neq.
Qed.

Lemma last_option_unrecognized (key : string) (opts : list (string * string)) :
  Forall (fun oa => oa.1 <> key) opts -> last_option key opts = None.
Proof.
  induction 1 as [|[o v] opts Ho _ IH]; [reflexivity|].
  rewrite last_option_cons_other; [done|]. by apply String.eqb_neq.
Qed.

End OptionLoops.

(** ** Whole runs of the actions *)

Section Runs.

Context {RngState : Type}.
Variable random_seed : Z -> RngState.
Variable read_das : string -> list DA.
Variable read_ttrees : string -> Doc.
Variable ttrees_of_none : Outcome (list SyntaxTree).
Variable sampling_tree : SamplingPlanner -> DA -> RngState -> SyntaxTree * RngState.
Variable asearch_tree : ASearchPlanner -> DA -> option SyntaxTree -> SyntaxTree.

Local Abbreviation run_action :=
  (run_action (RngState:=RngState) read_das read_ttrees ttrees_of_none sampling_tree
     asearch_tree).
Local Abbreviation main :=
  (main (RngState:=RngState) random_seed read_das read_ttrees ttrees_of_none
     sampling_tree asearch_tree).
Local Abbreviation sample_gen :=
  (sample_gen (RngState:=RngState) read_das read_ttrees ttrees_of_none sampling_tree).
Local Abbreviation asearch_gen :=
  (asearch_gen (RngState:=RngState) read_das read_ttrees ttrees_of_none asearch_tree).
Local Abbreviation sample_gen_evaluate :=
  (sample_gen_evaluate (RngState:=RngState) read_ttrees ttrees_of_none).
Local Abbreviation asearch_gen_evaluate :=
  (asearch_gen_evaluate (RngState:=RngState) read_ttrees ttrees_of_none asearch_tree).

Lemma write_output_spec (fname_ttrees_out : option string) (gen_doc : option Doc)
    (w : World RngState) :
  write_output fname_ttrees_out gen_doc w
  = (Ret tt, {| rng := rng w;
                trace := trace w ++ write_events fname_ttrees_out gen_doc |}).
Proof.
  destruct fname_ttrees_out as [f|]; simpl.
  - unfold bind, log_info, emit. simpl. by rewrite <- app_assoc.
  - unfold ret. by rewrite app_nil_r, world_eta.
Qed.


(** X2. [logregrank_create_data], whatever its arguments: an option that
    [getopt] rejects ends it with [GetoptError]; any count of positional
    arguments other than five ends it with the usage text; else it loads
    the candidate generator, reads the ranker configuration and creates the
    training data, with the header file of the last [-h] if there is
    one. *)
Theorem logregrank_create_data_run (args : list string) (w : World RngState) :
  logregrank_create_data args w
  = match getopt args "h:" with
    | Ret (opts, files) =>
        match files with
        | [fname_da_train; fname_ttrees_train; fname_cand_model; fname_rank_config;
           fname_rank_train] =>
            (Ret tt,
             {| rng := rng w;
                trace := trace w ++
                  [LogInfo "Creating data for ranker...";
                   CandgenLoad fname_cand_model;
                   ConfigRead fname_rank_config;
                   LogRegCreateData fname_rank_config fname_ttrees_train
                     fname_da_train fname_cand_model fname_rank_train
                     (last_option "-h" opts)] |})
        | _ => (SysExit usage, w)
        end
    | SysExit msg => (SysExit msg, w)
    | Raise e => (Raise e, w)
    end.
Proof.
  unfold logregrank_create_data. unfold bind at 1. unfold lift.
  destruct (getopt args "h:") as [[opts files]| |]; [|reflexivity..].
  unfold bind at 1. rewrite logregrank_create_data_options_value.
  destruct files as [|a [|b [|c [|d [|e [|f files]]]]]]; try reflexivity.
  unfold bind, log_info, emit. simpl. by rewrite <- !app_assoc.
Qed.


Lemma asearch_options_keys (args : list string) (opts : list (string * string))
    (files : list string) :
  getopt args "e:d:" = Ret (opts, files) ->
  last_option "-w" opts = None /\ last_option "-c" opts = None.
Proof.
  intros Hg. pose proof (getopt_recognized _ _ _ _ Hg) as Hrec.
  split; apply last_option_unrecognized; (eapply Forall_impl; [exact Hrec|]);
    intros oa Hoa; apply recognized_asearch in Hoa as [-> | ->]; discriminate.
Qed.

(** X4. [asearch_gen], whatever its arguments.  Every [-d] met opens its
    debug file, also when the action then exits on a wrong argument count.
    With three positional arguments it loads both models and reads the
    dialogue acts; the planner is always built without a configuration.
    Without [-e] nothing further is observable: the generated document is
    never written and does not show in the outcome, whatever trees the
    planner returns.  With [-e] the evaluation is all that follows. *)
Theorem asearch_gen_run (args : list string) (w : World RngState) :
  asearch_gen args w
  = match getopt args "e:d:" with
    | Ret (opts, files) =>
        let w0 := {| rng := rng w; trace := trace w ++ debug_sinks opts |} in
        match files with
        | [fname_cand_model; fname_rank_model; fname_da_test] =>
            let tgen := mkASearch None fname_cand_model (last_option "-d" opts)
                          (PerceptronRanker fname_rank_model) in
            let w1 := {| rng := rng w;
                         trace := trace w ++ debug_sinks opts ++
                           [LogInfo "Initializing..."; CandgenLoad fname_cand_model;
                            RankerLoad fname_rank_model; LogInfo "Generating...";
                            ReadDas fname_da_test] |} in
            match last_option "-e" opts with
            | None => (Ret tt, w1)
            | Some f =>
                match asearch_gen_evaluate tgen (read_das fname_da_test) f w1 with
                | (Ret _, w2) => (Ret tt, w2)
                | (SysExit msg, w2) => (SysExit msg, w2)
                | (Raise e, w2) => (Raise e, w2)
                end
            end
        | _ => (SysExit ("Invalid arguments." +:+ nl +:+ usage), w0)
        end
    | SysExit msg => (SysExit msg, w)
    | Raise e => (Raise e, w)
    end.
Proof.
  unfold asearch_gen. unfold bind at 1. unfold lift.
  destruct (getopt args "e:d:") as [[opts files]| |] eqn:Hg; [|reflexivity..].
  unfold bind at 1. rewrite asearch_gen_options_value.
  destruct (asearch_options_keys _ _ _ Hg) as [-> ->].
  unfold asearch_gen_body.
  destruct files as [|cand [|rank [|dasf [|d files]]]]; try reflexivity.
  cbn [length Nat.eqb negb]. cbv zeta.
  unfold bind at 1. unfold log_info at 1. unfold emit at 1. cbv iota beta.
  unfold bind at 1. unfold emit at 1. cbv iota beta.
  unfold bind at 1. unfold emit at 1. cbv iota beta.
  unfold bind at 1. unfold ret at 1. cbv iota beta.
  unfold bind at 1. unfold log_info at 1. unfold emit at 1. cbv iota beta.
  unfold bind at 1. unfold emit at 1. cbv iota beta. cbn [rng trace].
  match goal with
  | |- bind _ _ ?W = _ =>
      replace W with
        {| rng := rng w;
           trace := trace w ++ debug_sinks opts ++
             [LogInfo "Initializing..."; CandgenLoad cand; RankerLoad rank;
              LogInfo "Generating..."; ReadDas dasf] |}
        by (f_equal; rewrite <- !app_assoc; reflexivity)
  end.
  unfold bind at 1. destruct (last_option "-e" opts) as [f|].
  - destruct (asearch_gen_evaluate _ _ _ _) as [[d| |] w2];
      [|reflexivity..].
    unfold write_output, ret. reflexivity.
  - unfold asearch_gen_just_generate.
    rewrite (just_generate_spec asearch_tree _ (read_das dasf) []). reflexivity.
Qed.


End Runs.

(** ** What generation does and does not do *)

Section GenerationExtras.

Context {RngState : Type}.
Variable read_das : string -> list DA.
Variable read_ttrees : string -> Doc.
Variable ttrees_of_none : Outcome (list SyntaxTree).
Variable sampling_tree : SamplingPlanner -> DA -> RngState -> SyntaxTree * RngState.
Variable asearch_tree : ASearchPlanner -> DA -> option SyntaxTree -> SyntaxTree.

Local Abbreviation sample_gen :=
  (sample_gen (RngState:=RngState) read_das read_ttrees ttrees_of_none sampling_tree).
Local Abbreviation asearch_gen :=
  (asearch_gen (RngState:=RngState) read_das read_ttrees ttrees_of_none asearch_tree).
Local Abbreviation sample_gen_generate :=
  (sample_gen_generate (RngState:=RngState) sampling_tree).
Local Abbreviation sample_gen_evaluate :=
  (sample_gen_evaluate (RngState:=RngState) read_ttrees ttrees_of_none).
Local Abbreviation asearch_gen_evaluate :=
  (asearch_gen_evaluate (RngState:=RngState) read_ttrees ttrees_of_none asearch_tree).

Lemma emits_only_sampling_generate_tree (P : Event -> Prop) (tgen : SamplingPlanner)
    (da : DA) (gen_doc : option Doc) :
  emits_only P (sampling_generate_tree sampling_tree tgen da gen_doc).
Proof.
  intros w. exists []. unfold sampling_generate_tree.
  destruct (sampling_tree tgen da (rng w)) as [t r]. simpl. by rewrite app_nil_r.
Qed.

Ltac silent :=
  repeat first
    [ apply emits_only_ret
    | apply emits_only_lift
    | apply emits_only_ttrees_from_doc
    | apply emits_only_sampling_generate_tree
    | apply emits_only_emit; reflexivity
    | apply emits_only_for_each; intros
    | apply emits_only_bind; [|intros]
    | match goal with
      | |- emits_only _ (match ?x with _ => _ end) => destruct x
      | |- emits_only _ ((match ?x with _ => _ end) _) => destruct x
      | |- emits_only _ (let _ := ?x in _) => destruct x
      end ].

(** X7. Neither generation action ever trains or saves a model or writes
    training data, whatever its arguments. *)
Theorem generation_leaves_models_alone (args : list string) :
  emits_only (fun e => modifies_model e = false) (sample_gen args)
  /\ emits_only (fun e => modifies_model e = false) (asearch_gen args).
Proof.
  split.
  - unfold sample_gen, sample_gen_options, sample_gen_generate,
      sample_gen_evaluate, write_output, log_info, sys_exit, unpack_error.
    silent.
  - unfold asearch_gen, asearch_gen_options, asearch_gen_body,
      asearch_gen_evaluate, asearch_gen_just_generate,
      asearch_generate_tree, write_output, log_info, sys_exit, unpack_error.
    silent.
Qed.

Lemma draws_all_none (tgen : SamplingPlanner) (das : list DA) (r : RngState) :
  draws_all sampling_tree tgen das 0 r = (map (fun _ => []) das, r).
Proof.
  induction das as [|da das IH]; simpl; [done|]. by rewrite IH.
Qed.

Lemma concat_empty_runs {A : Type} (das : list DA) :
  concat (map (fun _ => @nil A) das) = [].
Proof. induction das as [|da das IH]; simpl; done. Qed.


Lemma draws_all_app (tgen : SamplingPlanner) (k : nat) (das1 das2 : list DA) :
  forall r,
    draws_all sampling_tree tgen (das1 ++ das2) k r
    = ((draws_all sampling_tree tgen das1 k r).1
       ++ (draws_all sampling_tree tgen das2 k
             (draws_all sampling_tree tgen das1 k r).2).1,
       (draws_all sampling_tree tgen das2 k
          (draws_all sampling_tree tgen das1 k r).2).2).
Proof.
  induction das1 as [|da das1 IH]; intros r; simpl.
  - by destruct (draws_all sampling_tree tgen das2 k r).
  - destruct (draws sampling_tree tgen da k r) as [ts r1]. rewrite IH.
    destruct (draws_all sampling_tree tgen das1 k r1) as [tss1 r2]. simpl.
    by destruct (draws_all sampling_tree tgen das2 k r2).
Qed.

Lemma doc_trees_as_doc (trees : list SyntaxTree) : doc_trees (as_doc trees) = trees.
Proof. by destruct trees. Qed.


(** X10. When gold trees and dialogue acts give no pair to evaluate (one
    of the two files is empty), search generation generates nothing and
    the driver hands [None] to [ttrees_from_doc]: the evaluation ends as
    that call ends, after the gold file has been read and before anything
    is scored. *)
Theorem asearch_gen_evaluate_nothing (tgen : ASearchPlanner) (das : list DA)
    (f : string) (e : PyExn) (w : World RngState) :
  das = [] \/ read_ttrees f = [] ->
  ttrees_of_none = Raise e ->
  asearch_gen_evaluate tgen das f w
  = (Raise e, {| rng := rng w; trace := trace w ++ [ReadTtrees f] |}).
Proof.
  intros H He.
  assert (py_zip das (read_ttrees f) = []) as Hz.
  { destruct H as [-> | ->]; [reflexivity|]. unfold py_zip. by destruct das. }
  unfold asearch_gen_evaluate, bind, log_info, emit, ttrees_from_doc,
    ret, lift. cbn -[py_zip]. rewrite Hz. simpl. by rewrite He.
Qed.

End GenerationExtras.

(** ** The oracle's choice among equals *)

Lemma py_max_from_first {A : Type} (key : A -> Q) (l : list A) :
  forall b,
    exists before after,
      b :: l = before ++ py_max_from key b l :: after
      /\ (forall x, x ∈ before -> (key x < key (py_max_from key b l))%Q)
      /\ (forall x, x ∈ after -> (key x <= key (py_max_from key b l))%Q).
Proof.
  induction l as [|x l IH]; intros b; simpl.
  - exists [], []. split; [done|]. split; intros y Hy; by apply elem_of_nil in Hy.
  - destruct (Qlt_bool (key b) (key x)) eqn:E.
    + destruct (IH x) as (before & after & Heq & Hb & Ha).
      exists (b :: before), after. split; [by rewrite Heq|]. split; [|exact Ha].
      intros y Hy. apply elem_of_cons in Hy as [->|Hy]; [|by apply Hb].
      apply Qlt_bool_iff in E. eapply Qlt_le_trans; [exact E|apply py_max_from_ge].
    + apply Qlt_bool_false in E.
      destruct (IH b) as (before & after & Heq & Hb & Ha).
      destruct before as [|b' before].
      * simpl in Heq. injection Heq as Hres Hl.
        exists [], (x :: after). split; [simpl; congruence|].
        split; [intros y Hy; by apply elem_of_nil in Hy|].
        intros y Hy. apply elem_of_cons in Hy as [->|Hy]; [|by apply Ha].
        set (res := py_max_from key b l) in *. by rewrite <- Hres.
      * simpl in Heq. injection Heq as <- Hl.
        exists (b :: x :: before), after. split; [simpl; congruence|].
        split; [|exact Ha].
        intros y Hy. apply elem_of_cons in Hy as [->|Hy]; [apply Hb; by left|].
        apply elem_of_cons in Hy as [->|Hy].
        -- eapply Qle_lt_trans; [exact E|apply Hb; by left].
        -- apply Hb. by right.
Qed.

(** X11. Among the trees generated for a dialogue act the oracle loop
    takes the first one of maximal F1: every tree generated before the one
    selected has a strictly smaller F1 against the gold tree, every tree
    generated after it an F1 that is not greater; the counts added to the
    totals are those of that tree. *)
Theorem oracle_picks_first_best (gold_tree : SyntaxTree) (gen_trees : list SyntaxTree) :
  gen_trees <> [] ->
  exists before after,
    gen_trees = before ++ best_tree gold_tree gen_trees :: after
    /\ (forall t, t ∈ before ->
          (tree_f1 gold_tree t < tree_f1 gold_tree (best_tree gold_tree gen_trees))%Q)
    /\ (forall t, t ∈ after ->
          (tree_f1 gold_tree t <= tree_f1 gold_tree (best_tree gold_tree gen_trees))%Q)
    /\ py_max score_key (scored_counts gold_tree gen_trees)
       = Ret (f1_from_counts
                (tp_fp_fn gold_tree (best_tree gold_tree gen_trees)).1.1
                (tp_fp_fn gold_tree (best_tree gold_tree gen_trees)).1.2
                (tp_fp_fn gold_tree (best_tree gold_tree gen_trees)).2,
              (tp_fp_fn gold_tree (best_tree gold_tree gen_trees)).1.1,
              (tp_fp_fn gold_tree (best_tree gold_tree gen_trees)).1.2,
              (tp_fp_fn gold_tree (best_tree gold_tree gen_trees)).2).
Proof.
  destruct gen_trees as [|t rest]; [done|]. intros _.
  destruct (py_max_from_first (tree_f1 gold_tree) rest t)
    as (before & after & Heq & Hb & Ha).
  exists before, after. split; [exact Heq|]. split; [exact Hb|]. split; [exact Ha|].
  rewrite py_max_scored. unfold scored.
  by destruct (tp_fp_fn gold_tree (best_tree gold_tree (t :: rest))) as [[c p] g].
Qed.

Lemma oracle_picks_first_best_witness :
  best_tree (leaf "odd") [leaf "even"; leaf "odd"; leaf "odd"] = leaf "odd"
  /\ exists before after,
       [leaf "even"; leaf "odd"; leaf "odd"]
       = before ++ best_tree (leaf "odd") [leaf "even"; leaf "odd"; leaf "odd"] :: after
       /\ forall t, t ∈ before ->
            (tree_f1 (leaf "odd") t
             < tree_f1 (leaf "odd")
                 (best_tree (leaf "odd") [leaf "even"; leaf "odd"; leaf "odd"]))%Q.
Proof.
  split; [vm_compute; reflexivity|].
  destruct (oracle_picks_first_best (leaf "odd") [leaf "even"; leaf "odd"; leaf "odd"])
    as (before & after & Heq & Hb & _); [discriminate|].
  exists before, after. split; [exact Heq | exact Hb].
Defined.

(** ** Options come first *)

Lemma prepend_opts_files (os : list (string * string))
    (r : Outcome (list (string * string) * list string))
    (opts : list (string * string)) (files : list string) :
  prepend_opts os r = Ret (opts, files) ->
  exists os', r = Ret (os', files) /\ opts = os ++ os'.
Proof.
  destruct r as [[os' fs]| |]; simpl; try discriminate.
  intros [= <- <-]. by exists os'.
Qed.

Lemma getopt_suffix (shortopts : string) (args : list string) :
  forall opts files,
    getopt args shortopts = Ret (opts, files) -> files `suffix_of` args.
Proof.
  remember (length args) as n eqn:Hn.
  revert args Hn. induction n as [n IH] using lt_wf_ind.
  intros [|a rest] Hn opts files; simpl.
  - intros [= _ <-]. done.
  - destruct (startswith "-" a && negb (a =? "-")); [|intros [= _ <-]; done].
    destruct (a =? "--"); [intros [= _ <-]; by apply suffix_cons_r|].
    destruct (startswith "--" a); [discriminate|].
    destruct (do_shorts [] _ shortopts (head rest)) as [[os [|]]| |];
      try discriminate.
    + destruct rest as [|b rest']; [intros [= _ <-]; by apply suffix_nil|].
      intros H. apply prepend_opts_files in H as (os' & H & _).
      do 2 apply suffix_cons_r.
      eapply (IH (length rest')); [simpl in Hn; lia|done|exact H].
    + intros H. apply prepend_opts_files in H as (os' & H & _).
      apply suffix_cons_r.
      eapply (IH (length rest)); [simpl in Hn; lia|done|exact H].
Qed.

(** X12. For every action the positional arguments are what is left of
    the command line once the options have been taken off its front: they
    are a suffix of the argument list.  An argument list whose first word
    is not an option word is positional as a whole, so an option given
    after the first positional argument is not read as an option. *)
Theorem options_precede_positionals (a : Action) :
  (forall args files, positional a args = Ret files -> files `suffix_of` args)
  /\ (forall first rest,
        option_word first = false ->
        positional a (first :: rest) = Ret (first :: rest)
        /\ options a (first :: rest) = []).
Proof.
  split.
  - intros args files. unfold positional.
    destruct (shortopts_of a) as [so|]; [|by intros [= <-]].
    destruct (getopt args so) as [[opts fs]| |] eqn:E; try discriminate.
    intros [= <-]. by eapply getopt_suffix.
  - intros first rest Hw. unfold positional, options, option_word in *.
    destruct (shortopts_of a) as [so|]; [|done]. simpl. by rewrite Hw.
Qed.

Lemma options_precede_positionals_witness :
  positional AASearchGen ["candgen"; "percrank"; "das"; "-e"; "gold"]
  = Ret ["candgen"; "percrank"; "das"; "-e"; "gold"]
  /\ options AASearchGen ["candgen"; "percrank"; "das"; "-e"; "gold"] = []
  /\ ["das"] `suffix_of` ["-p"; "3"; "das"].
Proof.
  destruct (options_precede_positionals AASearchGen) as [_ H].
  destruct (H "candgen" ["percrank"; "das"; "-e"; "gold"] eq_refl) as [Hp Ho].
  split; [exact Hp|]. split; [exact Ho|].
  destruct (options_precede_positionals ACandgenTrain) as [Hs _].
  apply (Hs ["-p"; "3"; "das"] ["das"]). reflexivity.
Defined.




Lemma asearch_gen_evaluate_nothing_witness :
  asearch_gen_evaluate demo_read_ttrees demo_ttrees_of_none demo_asearch_tree
    (mkASearch None "candgen" None (PerceptronRanker "percrank"))
    (demo_read_das "das2") "empty" (mkWorld 0%Z [])
  = (Raise (AttributeError "'NoneType' object has no attribute 'bundles'"),
     {| rng := 0%Z; trace := [ReadTtrees "empty"] |}).
Proof.
  apply (asearch_gen_evaluate_nothing demo_read_ttrees demo_ttrees_of_none
           demo_asearch_tree).
  - right. reflexivity.
  - reflexivity.
Defined.

(** A non-integer [-n] ends [sample_gen] although a later [-n] is fine and
    although the argument count is wrong as well. *)
Example first_bad_value_wins :
  demo_run_action ASampleGen ["-n"; "two"; "-n"; "2"; "candgen"] (mkWorld 0%Z [])
  = (Raise (int_error "two"), mkWorld 0%Z []).
Proof. reflexivity. Qed.

(** Two [-d] options open two files; the second is the debug sink. *)
Example every_debug_file_is_opened :
  percrank_train_options [("-d", "first"); ("-c", "candgen"); ("-d", "second")]
    (mkWorld 0%Z [])
  = (Ret (Some "second", Some "candgen"),
     {| rng := 0%Z; trace := [FileStreamW "first"; FileStreamW "second"] |}).
Proof. reflexivity. Qed.

(** Search generation without [-e]: the trees leave no mark. *)
Example asearch_gen_discards_trees :
  demo_run_action AASearchGen ["-d"; "debug"; "candgen"; "percrank"; "das2"]
    (mkWorld 0%Z [])
  = (Ret tt,
     {| rng := 0%Z;
        trace := [FileStreamW "debug"; LogInfo "Initializing..."; CandgenLoad "candgen";
                  RankerLoad "percrank"; LogInfo "Generating..."; ReadDas "das2"] |}).
Proof. reflexivity. Qed.
